(** * RDS health dashboard: threshold evaluation, issue aggregation, rendering

    A shallow embedding of [rds_enhanced/handler.py].  Python floats are the
    kernel's binary64 floats, so every comparison, product and quotient below
    is the one the interpreter performs.  Strings are byte strings holding the
    UTF-8 encoding of the Python text.  Calls to the cloud collaborators are
    replaced by the values they returned for one instance (an [observation]);
    the two Python exceptions the loop body can raise on such data
    ([float] of an oversized int, [int] of a non-finite float) are kept in an
    error monad.  The second part models what surrounds the loop: the
    helpers that read the collaborators' answers, the mail functions and the
    Lambda entry point of [app/main.py].  The interpreter's [str.lower] is a
    parameter from the loop on ([str_lower]), so every statement holds for
    the Unicode lower-casing as for any other. *)

From Stdlib Require Import ZArith List String Ascii Bool Lia.
From Stdlib Require Import DecimalString Floats Sorted.
Import ListNotations.

Local Open Scope list_scope.
Local Open Scope string_scope.

(** ** Exceptions *)

Inductive exn : Type :=
| OverflowError
| ValueError
| TypeError.

Inductive res (A : Type) : Type :=
| Ok (a : A)
| Raise (e : exn).

Arguments Ok {A} a.
Arguments Raise {A} e.

Definition bind {A B : Type} (c : res A) (k : A -> res B) : res B :=
  match c with
  | Ok a => k a
  | Raise e => Raise e
  end.

Notation "x <- c ;; k" := (bind c (fun x => k))
  (at level 61, c at next level, right associativity).

(** ** Python values met in the inventory's storage attributes

    [db.get("AllocatedStorage")] is [None] when the key is absent, an [int]
    when the service reports one, and may be a float when the caller hands in
    decoded JSON. *)

Inductive pyval : Type :=
| PyNone
| PyInt (z : Z)
| PyFloat (f : float).

(** [bool(v)] *)
Definition py_truthy (v : pyval) : bool :=
  match v with
  | PyNone => false
  | PyInt z => negb (z =? 0)%Z
  | PyFloat f => negb (f =? 0)%float
  end.

(** [isinstance(v, int)] *)
Definition isinstance_int (v : pyval) : bool :=
  match v with
  | PyInt _ => true
  | _ => false
  end.

(** [float(z)] for an int: the nearest double, ties to even;
    [OverflowError] when that is not finite. *)
Definition float_of_int (z : Z) : res float :=
  let f := SF2Prim (binary_normalize prec emax z 0 false) in
  if PrimFloat.is_infinity f then Raise OverflowError else Ok f.

(** [float(v)] *)
Definition py_float (v : pyval) : res float :=
  match v with
  | PyNone => Raise TypeError
  | PyInt z => float_of_int z
  | PyFloat f => Ok f
  end.

(** Truth value of an optional float: [None] and zero are falsy, every
    other float (NaN included) is truthy. *)
Definition float_truthy (v : option float) : bool :=
  match v with
  | None => false
  | Some f => negb (f =? 0)%float
  end.

(** ** Number formatting *)

Definition dec_of_Z (z : Z) : string :=
  NilZero.string_of_int (Z.to_int z).

(** Nearest integer to [m * 2^e] for [m > 0], ties to even. *)
Definition round_half_even (m : positive) (e : Z) : Z :=
  match e with
  | Zneg p =>
      let d := Z.pow_pos 2 p in
      let q := (Zpos m / d)%Z in
      let r := (Zpos m mod d)%Z in
      match (2 * r ?= d)%Z with
      | Lt => q
      | Gt => (q + 1)%Z
      | Eq => if Z.even q then q else (q + 1)%Z
      end
  | _ => (Zpos m * 2 ^ e)%Z
  end.

(** Integer part of [m * 2^e] for [m > 0]. *)
Definition truncate (m : positive) (e : Z) : Z :=
  match e with
  | Zneg p => (Zpos m / Z.pow_pos 2 p)%Z
  | _ => (Zpos m * 2 ^ e)%Z
  end.

(** [format(v, ".0f")] *)
Definition format_0f (v : float) : string :=
  match Prim2SF v with
  | S754_nan => "nan"
  | S754_infinity s => if s then "-inf" else "inf"
  | S754_zero s => if s then "-0" else "0"
  | S754_finite s m e =>
      (if s then "-" else EmptyString) ++ dec_of_Z (round_half_even m e)
  end.

(** [int(v)] for a float *)
Definition int_of_float (v : float) : res Z :=
  match Prim2SF v with
  | S754_nan => Raise ValueError
  | S754_infinity _ => Raise OverflowError
  | S754_zero _ => Ok 0%Z
  | S754_finite s m e => Ok (if s then (- truncate m e)%Z else truncate m e)
  end.

(** ** UI helpers *)

Definition _dot_by (level : string) : string :=
  if String.eqb level "OK" then "🟢"
  else if String.eqb level "WARN" then "🟡"
  else if String.eqb level "ALERT" then "🔴"
  else EmptyString.

Definition _fmt_pct (v : option float) : string :=
  match v with
  | None => "N/A"
  | Some f => format_0f f ++ "%"
  end.

Definition _fmt_ms (v : option float) : string :=
  match v with
  | None => "N/A"
  | Some f => format_0f f ++ " ms"
  end.

Definition _rds_link (region dbid : string) : string :=
  "https://" ++ region ++ ".console.aws.amazon.com/rds/home?region="
    ++ region ++ "#database:id=" ++ dbid.

(** ** Data model *)

(** One entry of [describe_db_instances]; a field is [None] when the key is
    absent from the dict. *)
Record db_instance : Type := {
  DBInstanceIdentifier : option string;
  Engine : option string;
  PubliclyAccessible : option bool;
  StorageEncrypted : option bool;
  AllocatedStorage : pyval;
  MaxAllocatedStorage : pyval;
  DBInstanceArn : option string
}.

Record pending_detail : Type := { Action : option string }.

Record pending_item : Type := {
  PendingMaintenanceActionDetails : list pending_detail
}.

(** What the collaborators answered for one instance: the entry itself, the
    [Name] tag, the five [_cw_latest] readings ([None]: no datapoint, or the
    fetch failed), and the pending-maintenance answer ([None]: the lookup
    raised and the [except] clause swallowed it). *)
Record observation : Type := {
  db : db_instance;
  name_tag : option string;
  wlat : option float;
  rlat : option float;
  cpu : option float;
  free_store_b : option float;
  conns : option float;
  pending_resp : option (list pending_item)
}.

Record thresholds : Type := {
  WRITE_WARN : float;
  WRITE_ALERT : float;
  READ_WARN : float;
  READ_ALERT : float;
  CPU_WARN : float;
  CPU_ALERT : float;
  FREE_WARN : float;
  FREE_ALERT : float
}.

(** The cutoffs when the environment overrides none of them. *)
Definition default_thresholds : thresholds := {|
  WRITE_WARN := 200; WRITE_ALERT := 300;
  READ_WARN := 200; READ_ALERT := 300;
  CPU_WARN := 70; CPU_ALERT := 90;
  FREE_WARN := 20; FREE_ALERT := 10
|}.

(** A report row, the 12-tuple of the source; [r[0]] is [db_cell_email],
    [r[11]] is [db_cell_teams]. *)
Record row : Type := {
  db_cell_email : string;
  engine : string;
  public_cell : string;
  enc_cell : string;
  write_cell : string;
  read_cell : string;
  cpu_cell : string;
  free_cell : string;
  conns_cell : string;
  pending_cell : string;
  autoscale_cell : string;
  db_cell_teams : string
}.

(** ** The loop body, expression by expression *)

Definition lower_ascii (c : ascii) : ascii :=
  let n := nat_of_ascii c in
  if (65 <=? n)%nat && (n <=? 90)%nat then ascii_of_nat (n + 32) else c.

(** [str.lower] as it acts on ASCII text; the sample evaluations use it
    where the interpreter's lower-casing is called for. *)
Fixpoint lower (s : string) : string :=
  match s with
  | EmptyString => EmptyString
  | String c s' => String (lower_ascii c) (lower s')
  end.

Definition str_truthy (s : string) : bool :=
  match s with
  | EmptyString => false
  | _ => true
  end.

(** [x or d] for an optional string *)
Definition str_or (x : option string) (d : string) : string :=
  match x with
  | Some s => if str_truthy s then s else d
  | None => d
  end.

Definition opt_bool (x : option bool) : bool :=
  match x with
  | Some b => b
  | None => false
  end.

(** [None if lat is None else float(lat)*1000.0] *)
Definition to_ms (lat : option float) : option float :=
  match lat with
  | None => None
  | Some w => Some (w * 1000)%float
  end.

(** Lines 163-166: the free-space percentage. *)
Definition free_pct_of (free_b : option float) (alloc_gb : pyval)
  : res (option float) :=
  match free_b with
  | Some b =>
      if py_truthy alloc_gb then
        g <- py_float alloc_gb ;;
        let total_b := (g * 1073741824)%float in
        Ok (if (0 <? total_b)%float then Some (b / total_b * 100)%float
            else None)
      else Ok None
  | None => Ok None
  end.

(** [v is not None and v >= cutoff] *)
Definition at_least (v : option float) (cutoff : float) : bool :=
  match v with
  | None => false
  | Some x => (cutoff <=? x)%float
  end.

(** [v is not None and v <= cutoff] *)
Definition at_most (v : option float) (cutoff : float) : bool :=
  match v with
  | None => false
  | Some x => (x <=? cutoff)%float
  end.

(** [v and v >= cutoff]: the guard is the truth value of [v]. *)
Definition truthy_at_least (v : option float) (cutoff : float) : bool :=
  float_truthy v && match v with
                    | Some x => (cutoff <=? x)%float
                    | None => false
                    end.

(** [v and v <= cutoff] *)
Definition truthy_at_most (v : option float) (cutoff : float) : bool :=
  float_truthy v && match v with
                    | Some x => (x <=? cutoff)%float
                    | None => false
                    end.

(** [x > y], evaluated by the source on two ints only (the [isinstance]
    tests come first in the conjunction). *)
Definition int_gt (x y : pyval) : bool :=
  match x, y with
  | PyInt a, PyInt b => (a >? b)%Z
  | _, _ => false
  end.

(** Line 176: storage autoscaling enabled = MaxAllocatedStorage >
    AllocatedStorage. *)
Definition autoscale_disabled_of (alloc_gb max_alloc_gb : pyval) : bool :=
  negb (isinstance_int alloc_gb && isinstance_int max_alloc_gb
        && int_gt max_alloc_gb alloc_gb).

(** [any(flags)] *)
Definition any (flags : list bool) : bool := existsb (fun b => b) flags.

(** ['ALERT' if alert else 'WARN' if warn else 'OK'] *)
Definition level3 (alert warn : bool) : string :=
  if alert then "ALERT" else if warn then "WARN" else "OK".

(** ['ALERT' if bad else 'OK'] *)
Definition level2 (bad : bool) : string :=
  if bad then "ALERT" else "OK".

(** *** Pending maintenance (lines 182-198) *)

(** [names.add(nm)] followed by [sorted(names)]: the names are kept as a
    strictly increasing list. *)
Fixpoint set_add (nm : string) (names : list string) : list string :=
  match names with
  | [] => [nm]
  | x :: rest =>
      if String.eqb nm x then names
      else if String.ltb nm x then nm :: names
      else x :: set_add nm rest
  end.

Definition add_detail (names : list string) (det : pending_detail)
  : list string :=
  let nm := str_or (Action det) EmptyString in
  if str_truthy nm then set_add nm names else names.

Definition action_names (acts : list pending_item) : list string :=
  fold_left
    (fun names item =>
       fold_left add_detail (PendingMaintenanceActionDetails item) names)
    acts [].

Definition list_truthy {A : Type} (l : list A) : bool :=
  match l with
  | [] => false
  | _ => true
  end.

Definition pending_has_of (resp : option (list pending_item)) : bool :=
  match resp with
  | Some acts =>
      any (map (fun item => list_truthy (PendingMaintenanceActionDetails item))
             acts)
  | None => false
  end.

Definition pending_txt_of (resp : option (list pending_item)) : string :=
  match resp with
  | Some acts =>
      if pending_has_of resp then
        let joined := String.concat ", " (action_names acts) in
        if str_truthy joined then joined else "Yes"
      else "None"
  | None => "None"
  end.

(** *** Link cells (lines 203-205) *)

Definition name_truthy (t : option string) : bool :=
  match t with
  | Some s => str_truthy s
  | None => false
  end.

Definition db_cell_email_of (db_url dbid : string) (tag : option string)
  : string :=
  "<a href='" ++ db_url ++ "'>" ++ dbid ++ "</a>"
  ++ match tag with
     | Some t =>
         if str_truthy t
         then "<br/><a href='" ++ db_url ++ "'>" ++ t ++ "</a>"
         else EmptyString
     | None => EmptyString
     end.

Definition newline : string := String (ascii_of_nat 10) EmptyString.

Definition db_cell_teams_of (db_url dbid : string) (tag : option string)
  : string :=
  "[" ++ dbid ++ "](" ++ db_url ++ ")"
  ++ match tag with
     | Some t =>
         if str_truthy t
         then newline ++ "[" ++ t ++ "](" ++ db_url ++ ")"
         else EmptyString
     | None => EmptyString
     end.

(** Line 213; the reading is a float whenever it is known. *)
Definition conns_cell_of (c : option float) : res string :=
  match c with
  | Some f => n <- int_of_float f ;; Ok (dec_of_Z n)
  | None => Ok "N/A"
  end.

(** ** One iteration of the loop (lines 144-216)

    The record holds the locals of the iteration: the derived readings, the
    seven alert flags, the issue flag, the level chosen for each cell's glyph,
    and the row appended to [rows]. *)
Record assessment : Type := {
  write_ms : option float;
  read_ms : option float;
  cpu_pct : option float;
  free_pct : option float;
  public_alert : bool;
  enc_disabled : bool;
  write_alert : bool;
  read_alert : bool;
  cpu_alert : bool;
  free_alert : bool;
  autoscale_disabled : bool;
  row_has_issue : bool;
  pending_has : bool;
  pending_lvl : string;
  autoscale_lvl : string;
  public_lvl : string;
  enc_lvl : string;
  write_lvl : string;
  read_lvl : string;
  cpu_lvl : string;
  free_lvl : string;
  the_row : row
}.

Section Dashboard.

(** [str.lower]: the Unicode lower-casing of the interpreter, which no
    table here reproduces; everything below holds for whatever it
    computes. *)
Variable str_lower : string -> string.

Definition assess (th : thresholds) (region : string) (o : observation)
  : res assessment :=
  let d := db o in
  let dbid := match DBInstanceIdentifier d with Some i => i | None => "-" end in
  let engine := str_lower (str_or (Engine d) "—") in
  let public := opt_bool (PubliclyAccessible d) in
  let enc := opt_bool (StorageEncrypted d) in
  let alloc_gb := AllocatedStorage d in
  let max_alloc_gb := MaxAllocatedStorage d in
  let write_ms := to_ms (wlat o) in
  let read_ms := to_ms (rlat o) in
  let cpu_pct := cpu o in
  free_pct <- free_pct_of (free_store_b o) alloc_gb ;;
  let public_alert := public in
  let enc_disabled := negb enc in
  let write_alert := at_least write_ms (WRITE_ALERT th) in
  let read_alert := at_least read_ms (READ_ALERT th) in
  let cpu_alert := at_least cpu_pct (CPU_ALERT th) in
  let free_alert := at_most free_pct (FREE_ALERT th) in
  let autoscale_disabled := autoscale_disabled_of alloc_gb max_alloc_gb in
  let row_has_issue :=
    any [public_alert; enc_disabled; write_alert; read_alert; cpu_alert;
         free_alert; autoscale_disabled] in
  let pending_has := pending_has_of (pending_resp o) in
  let pending_txt := pending_txt_of (pending_resp o) in
  let pending_lvl := if pending_has then "WARN" else "OK" in
  let pending_cell := _dot_by pending_lvl ++ " " ++ pending_txt in
  let autoscale_lvl := level2 autoscale_disabled in
  let autoscale_cell :=
    _dot_by autoscale_lvl ++ " "
      ++ (if autoscale_disabled then "Disabled" else "Enabled") in
  let db_url := _rds_link region dbid in
  let db_cell_email := db_cell_email_of db_url dbid (name_tag o) in
  let db_cell_teams := db_cell_teams_of db_url dbid (name_tag o) in
  let public_lvl := level2 public_alert in
  let public_cell := _dot_by public_lvl ++ " " ++ (if public then "Yes" else "No") in
  let enc_lvl := level2 enc_disabled in
  let enc_cell :=
    _dot_by enc_lvl ++ " " ++ (if enc_disabled then "Disabled" else "Enabled") in
  let write_lvl :=
    level3 write_alert (truthy_at_least write_ms (WRITE_WARN th)) in
  let write_cell := _dot_by write_lvl ++ " " ++ _fmt_ms write_ms in
  let read_lvl := level3 read_alert (truthy_at_least read_ms (READ_WARN th)) in
  let read_cell := _dot_by read_lvl ++ " " ++ _fmt_ms read_ms in
  let cpu_lvl := level3 cpu_alert (truthy_at_least cpu_pct (CPU_WARN th)) in
  let cpu_cell := _dot_by cpu_lvl ++ " " ++ _fmt_pct cpu_pct in
  let free_lvl := level3 free_alert (truthy_at_most free_pct (FREE_WARN th)) in
  let free_cell := _dot_by free_lvl ++ " " ++ _fmt_pct free_pct in
  conns_cell <- conns_cell_of (conns o) ;;
  Ok {|
    write_ms := write_ms; read_ms := read_ms; cpu_pct := cpu_pct;
    free_pct := free_pct;
    public_alert := public_alert; enc_disabled := enc_disabled;
    write_alert := write_alert; read_alert := read_alert;
    cpu_alert := cpu_alert; free_alert := free_alert;
    autoscale_disabled := autoscale_disabled;
    row_has_issue := row_has_issue;
    pending_has := pending_has; pending_lvl := pending_lvl;
    autoscale_lvl := autoscale_lvl; public_lvl := public_lvl;
    enc_lvl := enc_lvl; write_lvl := write_lvl; read_lvl := read_lvl;
    cpu_lvl := cpu_lvl; free_lvl := free_lvl;
    the_row := {|
      db_cell_email := db_cell_email; engine := engine;
      public_cell := public_cell; enc_cell := enc_cell;
      write_cell := write_cell; read_cell := read_cell;
      cpu_cell := cpu_cell; free_cell := free_cell;
      conns_cell := conns_cell; pending_cell := pending_cell;
      autoscale_cell := autoscale_cell; db_cell_teams := db_cell_teams
    |}
  |}.

(** ** Teams card (lines 9-14 and 227-237) *)

Record text_block : Type := {
  tb_text : string;
  tb_wrap : bool;
  tb_maxLines : nat;
  tb_size : string;
  tb_spacing : string;
  tb_weight : option string;
  tb_color : option string
}.

Record column : Type := {
  col_width : string;
  col_items : list text_block
}.

Definition _cell (text : string) (bold : bool) (color : option string)
  (width : string) (wrap : bool) : column :=
  {| col_width := width;
     col_items :=
       [ {| tb_text := text;
            tb_wrap := wrap;
            tb_maxLines := if negb wrap then 1 else 0;
            tb_size := "Small";
            tb_spacing := "Small";
            tb_weight := if bold then Some "Bolder" else None;
            tb_color := if name_truthy color then color else None |} ] |}.

Inductive body_elem : Type :=
| TextBlock (text weight size : string)
| ColumnSet (columns : list column).

Record card : Type := {
  card_type : string;
  contentType : string;
  schema : string;
  content_type : string;
  version : string;
  body : list body_elem
}.

Definition headers : list string :=
  ["DB"; "Engine"; "Public"; "Encryption"; "Write latency"; "Read latency";
   "CPU"; "Free space"; "Connections"; "Pending Maint"; "Autoscaling"].

Definition widths : list Z := [6; 3; 3; 3; 3; 3; 3; 3; 3; 3; 3]%Z.

(** [str(widths[i])]; both lists have eleven entries, so the index is
    always in range. *)
Definition width_at (i : nat) : string := dec_of_Z (nth i widths 0%Z).

Fixpoint enumerate_from {A : Type} (i : nat) (l : list A) : list (nat * A) :=
  match l with
  | [] => []
  | x :: l' => (i, x) :: enumerate_from (S i) l'
  end.

Definition enumerate {A : Type} (l : list A) : list (nat * A) :=
  enumerate_from 0 l.

Definition header_set : body_elem :=
  ColumnSet
    (map (fun ih => _cell (snd ih) true None (width_at (fst ih)) false)
       (enumerate headers)).

(** [teams_row]: the Markdown link first, then [r[1]] to [r[10]]. *)
Definition teams_row (r : row) : list string :=
  [db_cell_teams r; engine r; public_cell r; enc_cell r; write_cell r;
   read_cell r; cpu_cell r; free_cell r; conns_cell r; pending_cell r;
   autoscale_cell r].

Definition teams_set (r : row) : body_elem :=
  let tr := teams_row r in
  ColumnSet
    (map (fun i => _cell (nth i tr EmptyString) false None (width_at i) false)
       (seq 0 (List.length headers))).

Definition card_body (title : string) (failing_rows : list row)
  : list body_elem :=
  ([TextBlock title "Bolder" "Medium"; header_set]
   ++ map teams_set failing_rows)%list.

Definition build_card (title : string) (failing_rows : list row) : card :=
  {| card_type := "message";
     contentType := "application/vnd.microsoft.card.adaptive";
     schema := "http://adaptivecards.io/schemas/adaptive-card.json";
     content_type := "AdaptiveCard";
     version := "1.4";
     body := card_body title failing_rows |}.

(** ** Email (lines 92-120) *)

Definition email_head : string :=
  "<style>
      table{border-collapse:collapse;width:100%;font:13px Arial}
      th,td{border:1px solid #ddd;padding:6px 8px}
      th{background:#f5f5f5;text-align:left}
      .right{text-align:right}
    </style>".

Definition email_tr (r : row) : string :=
  "<tr>"
  ++ "<td>" ++ db_cell_email r ++ "</td><td>" ++ engine r
  ++ "</td><td>" ++ public_cell r ++ "</td><td>" ++ enc_cell r ++ "</td>"
  ++ "<td class='right'>" ++ write_cell r
  ++ "</td><td class='right'>" ++ read_cell r ++ "</td>"
  ++ "<td class='right'>" ++ cpu_cell r
  ++ "</td><td class='right'>" ++ free_cell r
  ++ "</td><td class='right'>" ++ conns_cell r ++ "</td>"
  ++ "<td>" ++ pending_cell r ++ "</td><td>" ++ autoscale_cell r ++ "</td>"
  ++ "</tr>".

(** [r[:11]]: the HTML anchor first, then [r[1]] to [r[10]]. *)
Definition first11 (r : row) : list string :=
  [db_cell_email r; engine r; public_cell r; enc_cell r; write_cell r;
   read_cell r; cpu_cell r; free_cell r; conns_cell r; pending_cell r;
   autoscale_cell r].

Definition _build_email_html (title : string) (rows : list row)
  : string * string :=
  let tr := map email_tr rows in
  let html :=
    "<html><head>" ++ email_head ++ "</head><body>"
    ++ "<h3>" ++ title ++ "</h3>"
    ++ "<table>"
    ++ "<tr><th>DB</th><th>Engine</th><th>Public</th><th>Encryption</th>"
    ++ "<th>Write latency</th><th>Read latency</th><th>CPU</th><th>Free space</th>"
    ++ "<th>Connections</th><th>Pending Maint</th><th>Autoscaling</th></tr>"
    ++ String.concat newline tr ++ "</table></body></html>" in
  let txt :=
    title ++ newline
    ++ String.concat newline
         (map (fun r => String.concat ", " (first11 r)) rows) in
  (html, txt).

(** ** The run (lines 123-246) *)

Record run_result : Type := {
  ok : bool;
  instances : nat;
  sent : bool;
  reason : option string;
  issues : option nat
}.

(** Calls that leave the module: [post_to_teams(url, card)] and
    [_send_email_ses(session, region, subject, html, text, env)]. *)
Inductive effect : Type :=
| PostToTeams (url : string) (c : card)
| SendEmailSES (subject html text : string).

(** The arguments of [run] and the process environment it reads:
    [acct] is what [get_acct_title] returned, [th] the cutoffs parsed from
    [env], [environ_webhook] is [os.environ.get("TEAMS_WEBHOOK", "")]. *)
Record config : Type := {
  acct : string;
  webhook : string;
  region : string;
  th : thresholds;
  environ_webhook : string
}.

(** The [for db in instances] loop: [rows] and [issue_flags] grow by one
    entry per instance; an exception ends the run. *)
Fixpoint loop (t : thresholds) (reg : string) (obs : list observation)
  (rows : list row) (issue_flags : list bool)
  : res (list row * list bool) :=
  match obs with
  | [] => Ok (rows, issue_flags)
  | o :: rest =>
      a <- assess t reg o ;;
      loop t reg rest (rows ++ [the_row a])%list
        (issue_flags ++ [row_has_issue a])%list
  end.

(** [[r for r, bad in zip(rows, issue_flags) if bad]] *)
Definition failing (rows : list row) (issue_flags : list bool) : list row :=
  map fst (filter (fun rb => snd rb) (combine rows issue_flags)).

Definition dispatch (cfg : config) (title : string) (failing_rows : list row)
  : list effect :=
  let c := build_card title failing_rows in
  let url :=
    if str_truthy (webhook cfg) then webhook cfg else environ_webhook cfg in
  let post := if str_truthy url then [PostToTeams url c] else [] in
  let '(html, txt) := _build_email_html title failing_rows in
  (post ++ [SendEmailSES title html txt])%list.

Definition run (cfg : config) (obs : list observation)
  : res (run_result * list effect) :=
  rf <- loop (th cfg) (region cfg) obs [] [] ;;
  let '(rows, issue_flags) := rf in
  let title := acct cfg ++ " - RDS Dashboard (Issues)" in
  if negb (list_truthy rows) then
    Ok ({| ok := true; instances := 0; sent := false;
           reason := Some "no-instances"; issues := None |}, [])
  else
    let failing_rows := failing rows issue_flags in
    if negb (list_truthy failing_rows) then
      Ok ({| ok := true; instances := List.length rows; sent := false;
             reason := Some "no-issues"; issues := None |}, [])
    else
      Ok ({| ok := true; instances := List.length rows; sent := true;
             reason := None; issues := Some (List.length failing_rows) |},
          dispatch cfg title failing_rows).

(** ** Vocabulary of the statements *)

(** The filter in the words of the specification: walk the evaluated
    instances in listing order and keep a report exactly when its issue flag
    is set. *)
Fixpoint filterFailing (reports : list (row * bool)) : list row :=
  match reports with
  | [] => []
  | (r, bad) :: rest =>
      if bad then r :: filterFailing rest else filterFailing rest
  end.

(** [Subseq s l]: [s] is [l] with some entries dropped, the others in their
    original order. *)
Inductive Subseq {A : Type} : list A -> list A -> Prop :=
| Subseq_nil : Subseq [] []
| Subseq_keep (x : A) (s l : list A) : Subseq s l -> Subseq (x :: s) (x :: l)
| Subseq_drop (x : A) (s l : list A) : Subseq s l -> Subseq s (x :: l).

(** Strictly positive: a finite non-zero float or an infinity, with the
    sign bit clear. *)
Definition SFpositive (x : spec_float) : bool :=
  match x with
  | S754_finite false _ _ | S754_infinity false => true
  | _ => false
  end.

Definition finite_float (f : float) : bool :=
  match Prim2SF f with
  | S754_nan | S754_infinity _ => false
  | _ => true
  end.

Definition int_fits_float (z : Z) : bool :=
  match float_of_int z with
  | Ok _ => true
  | Raise _ => false
  end.

(** The data on which an iteration raises nothing: an int storage size that
    has to be converted fits a double, and a known connection count is
    finite. *)
Definition evaluable (o : observation) : bool :=
  match free_store_b o, AllocatedStorage (db o) with
  | Some _, PyInt z => int_fits_float z
  | _, _ => true
  end
  && match conns o with
     | Some c => finite_float c
     | None => true
     end.

(** Texts of a card's data rows: the column sets after the title block and
    the header set. *)
Definition set_texts (e : body_elem) : list string :=
  match e with
  | ColumnSet cols =>
      List.concat (map (fun c => map tb_text (col_items c)) cols)
  | TextBlock _ _ _ => []
  end.

Definition card_data_rows (c : card) : list (list string) :=
  map set_texts (skipn 2 (body c)).

(** An HTML table row written from its cell texts. *)
Definition td (right : bool) (text : string) : string :=
  (if right then "<td class='right'>" else "<td>") ++ text ++ "</td>".

Definition right_aligned : list bool :=
  [false; false; false; false; true; true; true; true; true; false; false].

Definition tr_of_cells (cells : list string) : string :=
  "<tr>"
  ++ String.concat EmptyString
       (map (fun bc => td (fst bc) (snd bc)) (combine right_aligned cells))
  ++ "</tr>".

Definition html_prefix (title : string) : string :=
  "<html><head>" ++ email_head ++ "</head><body>"
  ++ "<h3>" ++ title ++ "</h3>"
  ++ "<table>"
  ++ "<tr><th>DB</th><th>Engine</th><th>Public</th><th>Encryption</th>"
  ++ "<th>Write latency</th><th>Read latency</th><th>CPU</th><th>Free space</th>"
  ++ "<th>Connections</th><th>Pending Maint</th><th>Autoscaling</th></tr>".

(** The ten cells a report row shows after its link cell: [r[1]] to
    [r[10]]. *)
Definition shared_cells (r : row) : list string :=
  [engine r; public_cell r; enc_cell r; write_cell r; read_cell r;
   cpu_cell r; free_cell r; conns_cell r; pending_cell r; autoscale_cell r].

(** The three outcomes of a run. *)
Definition no_instances : run_result :=
  {| ok := true; instances := 0; sent := false;
     reason := Some "no-instances"; issues := None |}.

Definition no_issues (n : nat) : run_result :=
  {| ok := true; instances := n; sent := false;
     reason := Some "no-issues"; issues := None |}.

Definition report_sent (n k : nat) : run_result :=
  {| ok := true; instances := n; sent := true;
     reason := None; issues := Some k |}.

(** ** The seven conditions, on what was observed

    The ALERT (for the binary dimensions, bad) state of each dimension,
    written on the inventory entry, the readings and the cutoffs. *)

Definition is_public (o : observation) : Prop :=
  PubliclyAccessible (db o) = Some true.

Definition not_encrypted (o : observation) : Prop :=
  StorageEncrypted (db o) <> Some true.

(** Latencies are read in seconds and compared in milliseconds. *)
Definition write_over (t : thresholds) (o : observation) : Prop :=
  exists w : float,
    wlat o = Some w /\ (WRITE_ALERT t <=? w * 1000)%float = true.

Definition read_over (t : thresholds) (o : observation) : Prop :=
  exists w : float,
    rlat o = Some w /\ (READ_ALERT t <=? w * 1000)%float = true.

Definition cpu_over (t : thresholds) (o : observation) : Prop :=
  exists c : float, cpu o = Some c /\ (CPU_ALERT t <=? c)%float = true.

(** Free bytes over allocated GB x 1024^3, in percent, at most the cutoff;
    the percentage exists for a positive allocated size only. *)
Definition free_under (t : thresholds) (o : observation) : Prop :=
  exists b g : float,
    free_store_b o = Some b /\
    py_float (AllocatedStorage (db o)) = Ok g /\
    (0 <? g)%float = true /\
    (b / (g * 1073741824) * 100 <=? FREE_ALERT t)%float = true.

Definition no_autoscaling (o : observation) : Prop :=
  ~ exists a m : Z,
      AllocatedStorage (db o) = PyInt a /\
      MaxAllocatedStorage (db o) = PyInt m /\ (a < m)%Z.

Definition in_bad_state (t : thresholds) (o : observation) : Prop :=
  is_public o \/ not_encrypted o \/ write_over t o \/ read_over t o \/
  cpu_over t o \/ free_under t o \/ no_autoscaling o.

(** ** Reading a card and the two link markups *)



Definition markdown_link (text url : string) : string :=
  "[" ++ text ++ "](" ++ url ++ ")".

Definition html_anchor (text url : string) : string :=
  "<a href='" ++ url ++ "'>" ++ text ++ "</a>".

(** The console page of an instance. *)
Definition console_url (reg dbid : string) : string :=
  "https://" ++ reg ++ ".console.aws.amazon.com/rds/home?region=" ++ reg
  ++ "#database:id=" ++ dbid.

(** ** Sample data *)

Definition sample_db : db_instance := {|
  DBInstanceIdentifier := Some "orders-db";
  Engine := Some "Postgres";
  PubliclyAccessible := Some false;
  StorageEncrypted := Some true;
  AllocatedStorage := PyInt 100;
  MaxAllocatedStorage := PyInt 200;
  DBInstanceArn := Some "arn:aws:rds:us-east-1:1:db:orders-db"
|}.

Definition sample_pending : option (list pending_item) :=
  Some [ {| PendingMaintenanceActionDetails :=
              [ {| Action := Some "system-update" |};
                {| Action := Some "db-upgrade" |} ] |} ].

(** Healthy on all seven dimensions, with maintenance pending. *)
Definition quiet_obs : observation := {|
  db := sample_db; name_tag := Some "Orders";
  wlat := Some 0.125%float; rlat := Some 0.0625%float;
  cpu := Some 12.5%float; free_store_b := Some 53687091200%float;
  conns := Some 12.75%float; pending_resp := sample_pending
|}.

(** 0.25 s of write latency and 10 GiB free out of 100 GB. *)
Definition busy_obs : observation := {|
  db := sample_db; name_tag := None;
  wlat := Some 0.25%float; rlat := None;
  cpu := Some 71.5%float; free_store_b := Some 10737418240%float;
  conns := Some 3%float; pending_resp := None
|}.

(** Nothing known beyond the inventory entry. *)
Definition blind_obs : observation := {|
  db := sample_db; name_tag := None;
  wlat := None; rlat := None; cpu := None; free_store_b := None;
  conns := None; pending_resp := None
|}.

(** A write latency of exactly zero. *)
Definition idle_obs : observation := {|
  db := sample_db; name_tag := None;
  wlat := Some 0%float; rlat := None; cpu := None; free_store_b := None;
  conns := None; pending_resp := None
|}.

(** Cutoffs with the write-latency WARN cutoff lowered to zero. *)
Definition zero_warn_thresholds : thresholds := {|
  WRITE_WARN := 0; WRITE_ALERT := 300;
  READ_WARN := 200; READ_ALERT := 300;
  CPU_WARN := 70; CPU_ALERT := 90;
  FREE_WARN := 20; FREE_ALERT := 10
|}.


Definition sample_cfg : config := {|
  acct := "Acme";
  webhook := "https://example.invalid/hook";
  region := "us-east-1";
  th := default_thresholds;
  environ_webhook := EmptyString
|}.

(** * The collaborators' answers, as the helpers read them *)

(** ** CloudWatch ([_cw_latest], lines 24-33) *)

(** One datapoint of [get_metric_statistics]: [x["Timestamp"]] as an
    instant on the time line ([None]: the key is absent) and [x.get(stat)]. *)
Record datapoint : Type := {
  Timestamp : option Z;
  Statistic : option float
}.

Record cw_response : Type := { Datapoints : option (list datapoint) }.

(** [max(dps, key=lambda x: x["Timestamp"])] after its first element: the
    running maximum is replaced only by a strictly later datapoint, and a
    datapoint without timestamp raises [KeyError] ([None] here). *)
Fixpoint max_by_timestamp (best : datapoint) (best_t : Z)
  (rest : list datapoint) : option datapoint :=
  match rest with
  | [] => Some best
  | x :: rest' =>
      match Timestamp x with
      | None => None
      | Some t =>
          if (t >? best_t)%Z then max_by_timestamp x t rest'
          else max_by_timestamp best best_t rest'
      end
  end.

(** [answer] is [None] when [get_metric_statistics] raised; every exception
    inside the [try] ends in [return None]. *)
Definition _cw_latest (answer : option cw_response) : option float :=
  match answer with
  | None => None
  | Some r =>
      match match Datapoints r with Some dps => dps | None => [] end with
      | [] => None
      | x :: rest =>
          match Timestamp x with
          | None => None
          | Some t =>
              match max_by_timestamp x t rest with
              | Some best => Statistic best
              | None => None
              end
          end
      end
  end.

(** ** Inventory ([_list_db_instances], lines 35-38) *)

Record page : Type := { DBInstances : option (list db_instance) }.

Definition _list_db_instances (pages : list page) : list db_instance :=
  fold_left
    (fun out p =>
       (out ++ match DBInstances p with Some l => l | None => [] end)%list)
    pages [].

(** ** Tags ([_get_name_tag], lines 40-45) *)

Record tag : Type := { Key : option string; Value : option string }.

Record tags_response : Type := { TagList : option (list tag) }.

Definition key_is_name (t : tag) : bool :=
  match Key t with
  | Some k => String.eqb k "Name"
  | None => false
  end.

(** [next((t["Value"] for t in tags if t.get("Key") == "Name"), None)]:
    [None] when no tag is named Name, [Some None] when the first such tag
    has no value ([KeyError]), [Some (Some v)] otherwise. *)
Fixpoint first_name_value (tags : list tag) : option (option string) :=
  match tags with
  | [] => None
  | t :: rest =>
      if key_is_name t then Some (Value t) else first_name_value rest
  end.

Definition _get_name_tag (answer : option tags_response) : option string :=
  match answer with
  | None => None
  | Some r =>
      match first_name_value
              match TagList r with Some l => l | None => [] end with
      | Some (Some v) => Some v
      | Some None => None
      | None => None
      end
  end.

(** ** What the loop gathers for one inventory entry (lines 144-158, 185)

    The service answers are functions of the request: tags and pending
    maintenance by ARN, metrics by metric name and instance identifier. *)
Record cloud : Type := {
  pages : list page;
  tags_of : option string -> option tags_response;
  metric_of : string -> string -> option cw_response;
  pending_of : option string -> option (list pending_item)
}.

Definition observe (c : cloud) (d : db_instance) : observation :=
  let dbid := match DBInstanceIdentifier d with Some i => i | None => "-" end in
  {| db := d;
     name_tag := _get_name_tag (tags_of c (DBInstanceArn d));
     wlat := _cw_latest (metric_of c "WriteLatency" dbid);
     rlat := _cw_latest (metric_of c "ReadLatency" dbid);
     cpu := _cw_latest (metric_of c "CPUUtilization" dbid);
     free_store_b := _cw_latest (metric_of c "FreeStorageSpace" dbid);
     conns := _cw_latest (metric_of c "DatabaseConnections" dbid);
     pending_resp := pending_of c (DBInstanceArn d) |}.

(** [run] from the inventory on. *)
Definition run_cloud (cfg : config) (c : cloud)
  : res (run_result * list effect) :=
  run cfg (map (observe c) (_list_db_instances (pages c))).

(** ** Vocabulary for the statements about the collaborators *)

Definition older_than (t : Z) (x : datapoint) : Prop :=
  exists u : Z, Timestamp x = Some u /\ (u < t)%Z.

Definition not_later_than (t : Z) (x : datapoint) : Prop :=
  exists u : Z, Timestamp x = Some u /\ (u <= t)%Z.

(** An inventory entry that fails on its configuration alone. *)
Definition config_problem (d : db_instance) : bool :=
  opt_bool (PubliclyAccessible d)
  || negb (opt_bool (StorageEncrypted d))
  || autoscale_disabled_of (AllocatedStorage d) (MaxAllocatedStorage d).

(** The free-space computation has to convert an int storage size that no
    double can hold. *)
Definition storage_overflows (o : observation) : bool :=
  match free_store_b o, AllocatedStorage (db o) with
  | Some _, PyInt z => negb (int_fits_float z)
  | _, _ => false
  end.

(** The details of all pending actions, in answer order. *)
Definition pending_details (resp : option (list pending_item))
  : list pending_detail :=
  match resp with
  | Some acts => flat_map PendingMaintenanceActionDetails acts
  | None => []
  end.

Definition pending_names (resp : option (list pending_item)) : list string :=
  match resp with
  | Some acts => action_names acts
  | None => []
  end.

(** Strictly smaller in the order [sorted] uses on strings (code points,
    which on UTF-8 text is the order of the bytes). *)
Definition by_ltb (x y : string) : Prop := String.ltb x y = true.

(** * Mail ([_parse_emails], [_send_email_ses], lines 48-90) *)

(** ** Whitespace

    [\s] in a [str] pattern and [str.strip()] use the same test,
    [Py_UNICODE_ISSPACE]: U+0009-000D, U+001C-0020, U+0085, U+00A0, U+1680,
    U+2000-200A, U+2028, U+2029, U+202F, U+205F and U+3000.  On the UTF-8
    bytes of a text these are the one-, two- and three-byte sequences
    recognised below.  In well-formed UTF-8 a lead byte only starts a
    character, so matching at every byte position not yet consumed is
    matching at every character. *)

Definition ascii_space (n : nat) : bool :=
  ((9 <=? n) && (n <=? 13) || (28 <=? n) && (n <=? 32))%nat.

(** Length in bytes of the whitespace character [s] starts with; 0 when it
    starts with none. *)
Definition space_len (s : string) : nat :=
  match s with
  | String c1 rest1 =>
      let n1 := nat_of_ascii c1 in
      if ascii_space n1 then 1
      else
        match rest1 with
        | String c2 rest2 =>
            let n2 := nat_of_ascii c2 in
            if ((n1 =? 194) && ((n2 =? 133) || (n2 =? 160)))%nat then 2
            else
              match rest2 with
              | String c3 _ =>
                  let n3 := nat_of_ascii c3 in
                  if ((n1 =? 225) && (n2 =? 154) && (n3 =? 128)
                      || (n1 =? 226) && (n2 =? 128)
                         && ((128 <=? n3) && (n3 <=? 138)
                             || (n3 =? 168) || (n3 =? 169) || (n3 =? 175))
                      || (n1 =? 226) && (n2 =? 129) && (n3 =? 159)
                      || (n1 =? 227) && (n2 =? 128) && (n3 =? 128))%nat
                  then 3
                  else 0
              | EmptyString => 0
              end
        | EmptyString => 0
        end
  | EmptyString => 0
  end.

(** A text as the regex engine and [strip] walk it: whitespace characters
    (with their bytes) and the other bytes. *)
Inductive token : Type :=
| Sp (bytes : string)
| Ch (c : ascii).

(** [skip] counts the bytes still to pass of a whitespace character already
    emitted. *)
Fixpoint tokens (skip : nat) (s : string) : list token :=
  match s with
  | EmptyString => []
  | String c rest =>
      match skip with
      | S k => tokens k rest
      | O =>
          match space_len s with
          | O => Ch c :: tokens 0 rest
          | S k => Sp (substring 0 (S k) s) :: tokens k rest
          end
      end
  end.

Definition token_bytes (t : token) : string :=
  match t with
  | Sp b => b
  | Ch c => String c EmptyString
  end.

Definition untokens (ts : list token) : string :=
  String.concat EmptyString (map token_bytes ts).

Definition is_space_token (t : token) : bool :=
  match t with
  | Sp _ => true
  | Ch _ => false
  end.

(** The character class [[,\s;]]. *)
Definition is_sep (t : token) : bool :=
  match t with
  | Sp _ => true
  | Ch c => Ascii.eqb c "," || Ascii.eqb c ";"
  end.

Fixpoint drop_spaces (ts : list token) : list token :=
  match ts with
  | t :: rest => if is_space_token t then drop_spaces rest else ts
  | [] => []
  end.

(** [s.strip()] *)
Definition strip (s : string) : string :=
  untokens (rev (drop_spaces (rev (drop_spaces (tokens 0 s))))).

Definition cons_head (c : ascii) (pieces : list string) : list string :=
  match pieces with
  | p :: ps => String c p :: ps
  | [] => [String c EmptyString]
  end.

(** [re.split(r"[,\s;]+", s)] on the tokens of [s]: a run of separators
    ends the current piece and starts the next; [in_run] says that the
    previous token was a separator. *)
Fixpoint split_tokens (in_run : bool) (ts : list token) : list string :=
  match ts with
  | [] => [EmptyString]
  | t :: rest =>
      if is_sep t then
        if in_run then split_tokens true rest
        else EmptyString :: split_tokens true rest
      else
        match t with
        | Ch c => cons_head c (split_tokens false rest)
        | Sp _ => split_tokens true rest
        end
  end.

Definition re_split (s : string) : list string :=
  split_tokens false (tokens 0 s).

(** [x in seen] *)
Definition in_set (x : string) (seen : list string) : bool :=
  existsb (String.eqb x) seen.

(** One pass of the [for p in parts] loop over the state [(seen, out)]. *)
Definition keep_new (st : list string * list string) (p : string)
  : list string * list string :=
  let '(seen, out) := st in
  let e := strip p in
  if str_truthy e && negb (in_set (str_lower e) seen)
  then (str_lower e :: seen, (out ++ [e])%list)
  else st.

Definition _parse_emails (value : option string) : list string :=
  let parts := re_split (str_or value EmptyString) in
  snd (fold_left keep_new parts ([], [])).

(** ** The environment and the SES call *)

Fixpoint env_lookup (env : list (string * string)) (k : string)
  : option string :=
  match env with
  | [] => None
  | (k', v) :: rest =>
      if String.eqb k k' then Some v else env_lookup rest k
  end.

(** [env.get(k, default)] *)
Definition env_get (env : list (string * string)) (k default : string)
  : string :=
  match env_lookup env k with
  | Some v => v
  | None => default
  end.

Record ses_message : Type := {
  Source : string;
  ToAddresses : list string;
  CcAddresses : option (list string);
  BccAddresses : option (list string);
  Subject : string;
  Html : string;
  Text : string
}.

Definition mail_enabled (env : list (string * string)) : bool :=
  in_set (str_lower (env_get env "ENABLE_MAIL_REPORT" "false"))
    ["1"; "true"; "t"; "yes"; "y"].

(** The one [ses.send_email] call, or [None] when the function returns
    before it. *)
Definition _send_email_ses (subject html text : string)
  (env : list (string * string)) : option ses_message :=
  if negb (mail_enabled env) then None
  else
    let frm := strip (env_get env "MAIL_FROM" EmptyString) in
    let tos := _parse_emails (Some (env_get env "MAIL_TO" EmptyString)) in
    let ccs := _parse_emails (Some (env_get env "MAIL_CC" EmptyString)) in
    let bccs := _parse_emails (Some (env_get env "MAIL_BCC" EmptyString)) in
    if negb (str_truthy frm) || negb (list_truthy tos) then None
    else
      Some {| Source := frm;
              ToAddresses := tos;
              CcAddresses := if list_truthy ccs then Some ccs else None;
              BccAddresses := if list_truthy bccs then Some bccs else None;
              Subject := subject; Html := html; Text := text |}.

(** A text without whitespace character, comma or semicolon: its tokens
    are its bytes, none of them a separator. *)
Definition clean (p : string) : Prop :=
  tokens 0 p = map Ch (list_ascii_of_string p) /\
  Forall (fun c => is_sep (Ch c) = false) (list_ascii_of_string p).

(** * The Lambda entry point ([app/main.py], lines 8-25) *)

Inductive handler_exn : Type :=
| KeyError (key : string)
| Raised (e : exn).

Inductive hres (A : Type) : Type :=
| HOk (a : A)
| HRaise (e : handler_exn).

Arguments HOk {A} a.
Arguments HRaise {A} e.

(** [{"ok": True, "modules": results}]; [modules] is [None] for the empty
    dict and otherwise holds the entry ["rds_enhanced"]. *)
Record handler_result : Type := {
  h_ok : bool;
  modules : option run_result
}.

(** A call that reaches a service outside the process. *)
Inductive outward : Type :=
| TeamsPost (url : string) (c : card)
| SesSend (m : ses_message).

(** What the two calls of [run] do once they are entered: [post_to_teams]
    posts, [_send_email_ses] sends or returns early. *)
Definition outward_of (env : list (string * string)) (e : effect)
  : list outward :=
  match e with
  | PostToTeams url c => [TeamsPost url c]
  | SendEmailSES subject html text =>
      match _send_email_ses subject html text env with
      | Some m => [SesSend m]
      | None => []
      end
  end.

Definition module_enabled (environ : list (string * string)) : bool :=
  in_set (str_lower (env_get environ "ENABLE_RDS_ENHANCED" "true"))
    ["1"; "true"; "yes"; "y"].

(** [acct_title] is what [get_acct_title(session)] returns, [t] the cutoffs
    [run] parses from [env], [cloud_in region] the answers of the services
    of that region. *)
Definition lambda_handler (environ : list (string * string))
  (acct_title : string) (t : thresholds) (cloud_in : string -> cloud)
  : hres (handler_result * list outward) :=
  let env := environ in
  let reg := env_get environ "AWS_REGION" "us-east-1" in
  match env_lookup environ "TEAMS_WEBHOOK" with
  | None => HRaise (KeyError "TEAMS_WEBHOOK")
  | Some hook =>
      if module_enabled environ then
        let cfg := {| acct := acct_title; webhook := hook; region := reg;
                      th := t;
                      environ_webhook :=
                        env_get environ "TEAMS_WEBHOOK" EmptyString |} in
        match run_cloud cfg (cloud_in reg) with
        | Ok (r, eff) =>
            HOk ({| h_ok := true; modules := Some r |},
                 flat_map (outward_of env) eff)
        | Raise e => HRaise (Raised e)
        end
      else HOk ({| h_ok := true; modules := None |}, [])
  end.

(** ** Reading a cell back *)

(** [c in s], on the bytes of the text. *)
Fixpoint has_byte (c : ascii) (s : string) : bool :=
  match s with
  | EmptyString => false
  | String b s' => Ascii.eqb c b || has_byte c s'
  end.

(** ** More sample data *)

(** An entry reachable from the internet. *)
Definition public_db : db_instance := {|
  DBInstanceIdentifier := Some "reports-db";
  Engine := Some "mysql";
  PubliclyAccessible := Some true;
  StorageEncrypted := Some true;
  AllocatedStorage := PyInt 50;
  MaxAllocatedStorage := PyInt 100;
  DBInstanceArn := Some "arn:aws:rds:us-east-1:1:db:reports-db"
|}.

(** Two entries on two pages, and no answer from any other call. *)
Definition dark_cloud : cloud := {|
  pages := [ {| DBInstances := Some [sample_db] |};
             {| DBInstances := Some [public_db] |} ];
  tags_of := fun _ => None;
  metric_of := fun _ _ => None;
  pending_of := fun _ => None
|}.

(** The default cutoffs with the three upper ALERT cutoffs raised. *)
Definition lenient_thresholds : thresholds := {|
  WRITE_WARN := 200; WRITE_ALERT := 400;
  READ_WARN := 200; READ_ALERT := 400;
  CPU_WARN := 70; CPU_ALERT := 95;
  FREE_WARN := 20; FREE_ALERT := 10
|}.

(** 5 GiB free out of 100 GB. *)
Definition full_obs : observation := {|
  db := sample_db; name_tag := None;
  wlat := None; rlat := None; cpu := None;
  free_store_b := Some 5368709120%float;
  conns := None; pending_resp := None
|}.

(** A write latency and a CPU reading that are not numbers. *)
Definition nan_obs : observation := {|
  db := sample_db; name_tag := None;
  wlat := Some nan; rlat := None; cpu := Some nan; free_store_b := None;
  conns := None; pending_resp := None
|}.

(** * Properties *)

(** ** Formatting, on a few values *)

Example format_examples :
  format_0f 250%float = "250" /\ format_0f 0.5%float = "0" /\
  format_0f 1.5%float = "2" /\ format_0f 2.5%float = "2" /\
  format_0f (-0.25)%float = "-0" /\ format_0f 99.5%float = "100" /\
  int_of_float 12.75%float = Ok 12%Z /\ int_of_float (-12.75)%float = Ok (-12)%Z /\
  float_of_int 100 = Ok 100%float.
Proof. vm_compute. repeat split. Qed.

(** ** Shape of one iteration's result *)

Ltac assess_cases H :=
  cbv beta zeta delta [assess] in H;
  destruct (free_pct_of _ _) as [?fp | ?e] eqn:?Hfree;
    [ | discriminate H ];
  destruct (conns_cell_of _) as [?cc | ?e] eqn:?Hconns;
    [ | discriminate H ];
  cbv beta iota delta [bind] in H;
  injection H as H; subst; cbn [write_ms read_ms cpu_pct free_pct
    public_alert enc_disabled write_alert read_alert cpu_alert free_alert
    autoscale_disabled row_has_issue pending_has pending_lvl autoscale_lvl
    public_lvl enc_lvl write_lvl read_lvl cpu_lvl free_lvl the_row
    db_cell_email engine public_cell enc_cell write_cell read_cell cpu_cell
    free_cell conns_cell pending_cell autoscale_cell db_cell_teams].

Lemma level2_alert (b : bool) : level2 b = "ALERT" <-> b = true.
Proof. destruct b; cbn; split; intro H; try reflexivity; discriminate H. Qed.

Lemma level3_alert (b w : bool) : level3 b w = "ALERT" <-> b = true.
Proof.
  destruct b, w; cbn; split; intro H; try reflexivity; discriminate H.
Qed.

Lemma level3_warn (b w : bool) :
  level3 b w = "WARN" <-> b = false /\ w = true.
Proof.
  destruct b, w; cbn; split; intro H; try (split; reflexivity);
    try discriminate H; destruct H as [H1 H2]; discriminate.
Qed.

Lemma level3_ok (b w : bool) :
  level3 b w = "OK" <-> b = false /\ w = false.
Proof.
  destruct b, w; cbn; split; intro H; try (split; reflexivity);
    try discriminate H; destruct H as [H1 H2]; discriminate.
Qed.

Lemma any7 (b1 b2 b3 b4 b5 b6 b7 : bool) :
  any [b1; b2; b3; b4; b5; b6; b7] = true <->
  b1 = true \/ b2 = true \/ b3 = true \/ b4 = true \/ b5 = true \/
  b6 = true \/ b7 = true.
Proof.
  unfold any; cbn [existsb].
  destruct b1, b2, b3, b4, b5, b6, b7; cbn; intuition discriminate.
Qed.

(** C2. A reading with no datapoint never raises a status: for every cutoff
    configuration the write-latency, read-latency, CPU and free-space levels
    are OK (no alert flag, green glyph) and the value shown is "N/A"; the
    connections cell, which carries no glyph, shows "N/A" as well. *)
Theorem unknown_reading_is_ok (t : thresholds) (reg : string)
  (o : observation) (a : assessment) :
  assess t reg o = Ok a ->
  (wlat o = None ->
     write_alert a = false /\ write_lvl a = "OK" /\
     write_cell (the_row a) = "🟢 N/A") /\
  (rlat o = None ->
     read_alert a = false /\ read_lvl a = "OK" /\
     read_cell (the_row a) = "🟢 N/A") /\
  (cpu o = None ->
     cpu_alert a = false /\ cpu_lvl a = "OK" /\
     cpu_cell (the_row a) = "🟢 N/A") /\
  (free_store_b o = None ->
     free_pct a = None /\ free_alert a = false /\ free_lvl a = "OK" /\
     free_cell (the_row a) = "🟢 N/A") /\
  (conns o = None -> conns_cell (the_row a) = "N/A").
Proof.
  intro H. assess_cases H.
  split; [ | split; [ | split; [ | split ] ] ]; intro E.
  - rewrite E. repeat split; reflexivity.
  - rewrite E. repeat split; reflexivity.
  - rewrite E. repeat split; reflexivity.
  - rewrite E in Hfree. cbn in Hfree. injection Hfree as <-.
    repeat split; reflexivity.
  - rewrite E in Hconns. cbn in Hconns. injection Hconns as <-. reflexivity.
Qed.

(** C7. Autoscaling is Enabled (level OK) exactly when allocated and maximum
    allocated storage are both ints and the maximum is strictly greater;
    in every other case it is Disabled (level ALERT). *)
Theorem autoscaling_enabled_iff (t : thresholds) (reg : string)
  (o : observation) (x : assessment) :
  assess t reg o = Ok x ->
  let enabled :=
    exists a m : Z,
      AllocatedStorage (db o) = PyInt a /\
      MaxAllocatedStorage (db o) = PyInt m /\ (a < m)%Z in
  (enabled ->
     autoscale_disabled x = false /\ autoscale_lvl x = "OK" /\
     autoscale_cell (the_row x) = "🟢 Enabled") /\
  (~ enabled ->
     autoscale_disabled x = true /\ autoscale_lvl x = "ALERT" /\
     autoscale_cell (the_row x) = "🔴 Disabled").
Proof.
  intros H enabled. subst enabled. assess_cases H.
  unfold autoscale_disabled_of.
  destruct (AllocatedStorage (db o)) as [ | a | fa];
    destruct (MaxAllocatedStorage (db o)) as [ | m | fm]; cbn;
    (split;
     [ try (intros (a' & m' & Ea & Em & _); discriminate)
     | try (intros _; repeat split; reflexivity) ]).
  - intros (a' & m' & Ea & Em & Hlt).
    injection Ea as <-. injection Em as <-.
    replace (m >? a)%Z with true by (symmetry; apply Z.gtb_lt; lia).
    repeat split; reflexivity.
  - intro Hn.
    destruct (m >? a)%Z eqn:E; cbn; [ | repeat split; reflexivity].
    exfalso. apply Hn. exists a, m.
    apply Z.gtb_lt in E. split; [reflexivity | split; [reflexivity | lia]].
Qed.

Lemma level3_zero_guard (alert : bool) (v cutoff : float) (cmp : bool) :
  (v =? 0)%float = true ->
  level3 alert (float_truthy (Some v) && cmp) <> "WARN" /\
  level3 alert (float_truthy (Some v) && cmp) =
    (if alert then "ALERT" else "OK").
Proof.
  intro Hz. unfold float_truthy. rewrite Hz. cbn.
  destruct alert; cbn; split; try reflexivity; discriminate.
Qed.

(** C10. A known reading whose converted value is zero is never WARN,
    whatever the cutoffs: the WARN comparison sits behind the truth value of
    the reading, so a zero is ALERT when it meets the ALERT comparison and OK
    otherwise. *)
Theorem zero_reading_never_warn (t : thresholds) (reg : string)
  (o : observation) (a : assessment) :
  assess t reg o = Ok a ->
  (forall v, write_ms a = Some v -> (v =? 0)%float = true ->
     write_lvl a <> "WARN" /\
     write_lvl a = if (WRITE_ALERT t <=? v)%float then "ALERT" else "OK") /\
  (forall v, read_ms a = Some v -> (v =? 0)%float = true ->
     read_lvl a <> "WARN" /\
     read_lvl a = if (READ_ALERT t <=? v)%float then "ALERT" else "OK") /\
  (forall v, cpu_pct a = Some v -> (v =? 0)%float = true ->
     cpu_lvl a <> "WARN" /\
     cpu_lvl a = if (CPU_ALERT t <=? v)%float then "ALERT" else "OK") /\
  (forall v, free_pct a = Some v -> (v =? 0)%float = true ->
     free_lvl a <> "WARN" /\
     free_lvl a = if (v <=? FREE_ALERT t)%float then "ALERT" else "OK").
Proof.
  intro H. assess_cases H.
  split; [ | split; [ | split ] ]; intros v Hv Hz; rewrite Hv;
    unfold truthy_at_least, truthy_at_most, at_least, at_most;
    apply (level3_zero_guard _ v 0%float _ Hz).
Qed.

(** C9. A known latency is multiplied by 1000 before it is compared with
    the cutoffs and before it is shown; 0.25 s of write latency is shown as
    "250 ms" and is WARN under the default cutoffs 200 and 300. *)
Theorem latency_in_milliseconds (t : thresholds) (reg : string)
  (o : observation) (a : assessment) :
  assess t reg o = Ok a ->
  (forall w, wlat o = Some w ->
     let ms := (w * 1000)%float in
     write_ms a = Some ms /\
     write_alert a = (WRITE_ALERT t <=? ms)%float /\
     write_lvl a =
       level3 (WRITE_ALERT t <=? ms)%float
         (negb (ms =? 0)%float && (WRITE_WARN t <=? ms)%float) /\
     write_cell (the_row a) =
       _dot_by (write_lvl a) ++ " " ++ format_0f ms ++ " ms") /\
  (forall r, rlat o = Some r ->
     let ms := (r * 1000)%float in
     read_ms a = Some ms /\
     read_alert a = (READ_ALERT t <=? ms)%float /\
     read_lvl a =
       level3 (READ_ALERT t <=? ms)%float
         (negb (ms =? 0)%float && (READ_WARN t <=? ms)%float) /\
     read_cell (the_row a) =
       _dot_by (read_lvl a) ++ " " ++ format_0f ms ++ " ms") /\
  (t = default_thresholds -> wlat o = Some 0.25%float ->
     write_ms a = Some 250%float /\ write_alert a = false /\
     write_lvl a = "WARN" /\ write_cell (the_row a) = "🟡 250 ms").
Proof.
  intro H. assess_cases H.
  split; [ | split ].
  - intros w Hw. rewrite Hw. repeat split; reflexivity.
  - intros r Hr. rewrite Hr. repeat split; reflexivity.
  - intros -> Hw. rewrite Hw. repeat split; reflexivity.
Qed.

(** ** Binary64 rounding: signs survive

    The conversion of a non-zero int and the product with 1024^3 are
    roundings of a non-zero mantissa; the facts below follow the mantissa
    through the shifts of [binary_round_aux] and show that the result keeps
    the sign and never collapses to zero. *)

Section Rounding.

Local Open Scope Z_scope.

Lemma digits2_size (p : positive) : digits2_pos p = Pos.size p.
Proof. induction p; cbn; congruence. Qed.

Lemma digits_log2 (p : positive) :
  Zpos (digits2_pos p) = Z.log2 (Zpos p) + 1.
Proof.
  destruct p; cbn [digits2_pos Z.log2]; rewrite ?digits2_size; lia.
Qed.

Lemma iter_pos_nat {A : Type} (f : A -> A) (p : positive) :
  forall x, iter_pos f p x = Nat.iter (Pos.to_nat p) f x.
Proof.
  induction p as [p IH | p IH | ]; intro x; cbn [iter_pos].
  - rewrite !IH, Pos2Nat.inj_xI.
    replace (S (2 * Pos.to_nat p))%nat
      with (Pos.to_nat p + (Pos.to_nat p + 1))%nat by lia.
    rewrite !Nat.iter_add. reflexivity.
  - rewrite !IH, Pos2Nat.inj_xO.
    replace (2 * Pos.to_nat p)%nat
      with (Pos.to_nat p + Pos.to_nat p)%nat by lia.
    rewrite Nat.iter_add. reflexivity.
  - reflexivity.
Qed.

Lemma shr_1_m (mrs : shr_record) :
  0 <= shr_m mrs -> shr_m (shr_1 mrs) = shr_m mrs / 2.
Proof.
  destruct mrs as [m r s]. cbn [shr_m]. intro Hm.
  rewrite <- Z.div2_div.
  destruct m as [ | p | p]; [reflexivity | | lia].
  destruct p; reflexivity.
Qed.

Lemma shr_iter_m (k : nat) (mrs : shr_record) :
  0 <= shr_m mrs ->
  shr_m (Nat.iter k shr_1 mrs) = shr_m mrs / 2 ^ Z.of_nat k.
Proof.
  intro Hm. induction k as [ | k IH].
  - cbn. rewrite Z.div_1_r. reflexivity.
  - rewrite Nat.iter_succ, shr_1_m.
    + rewrite IH, Nat2Z.inj_succ, Z.pow_succ_r by lia.
      rewrite Z.div_div by lia. f_equal. lia.
    + rewrite IH. apply Z.div_pos; lia.
Qed.

Lemma shr_m_div (p : positive) (mrs : shr_record) :
  0 <= shr_m mrs ->
  shr_m (iter_pos shr_1 p mrs) = shr_m mrs / 2 ^ Zpos p.
Proof.
  intro Hm. rewrite iter_pos_nat, shr_iter_m by exact Hm.
  rewrite positive_nat_Z. reflexivity.
Qed.

Lemma shr_m_of_loc (m : Z) (l : location) : shr_m (shr_record_of_loc m l) = m.
Proof. destruct l as [ | []]; reflexivity. Qed.

(** Shifting a positive mantissa that has more digits than the shift. *)
Lemma shifted_digits (M : positive) (n : Z) :
  0 < n -> n < Zpos (digits2_pos M) ->
  exists m' : positive,
    Zpos M / 2 ^ n = Zpos m' /\
    Zpos (digits2_pos m') = Zpos (digits2_pos M) - n.
Proof.
  intros Hn Hd. rewrite digits_log2 in Hd.
  assert (Hpos : 0 < Zpos M / 2 ^ n).
  { apply Z.div_str_pos. split; [apply Z.pow_pos_nonneg; lia | ].
    apply Z.le_trans with (2 ^ Z.log2 (Zpos M)).
    - apply Z.pow_le_mono_r; lia.
    - apply Z.log2_spec. lia. }
  destruct (Zpos M / 2 ^ n) as [ | m' | ] eqn:E; try lia.
  exists m'. split; [reflexivity | ].
  rewrite !digits_log2, <- E, <- Z.shiftr_div_pow2 by lia.
  rewrite Z.log2_shiftr by lia. lia.
Qed.

Lemma fexp64_eq (e : Z) : fexp prec emax e = Z.max (e - 53) (-1074).
Proof. reflexivity. Qed.

Lemma shr_fexp_pos (M : positive) (E : Z) (l : location) :
  -1074 < E + Zpos (digits2_pos M) ->
  exists m' : positive,
    shr_m (fst (shr_fexp prec emax (Zpos M) E l)) = Zpos m' /\
    snd (shr_fexp prec emax (Zpos M) E l)
    = Z.max E (fexp prec emax (Zpos (digits2_pos M) + E)) /\
    Zpos (digits2_pos m') + snd (shr_fexp prec emax (Zpos M) E l)
    = Zpos (digits2_pos M) + E.
Proof.
  intro H. unfold shr_fexp, shr. cbn [Zdigits2].
  rewrite fexp64_eq.
  destruct (Z.max (Z.pos (digits2_pos M) + E - 53) (-1074) - E)
    as [ | n | n] eqn:En; cbn [fst snd].
  - exists M. rewrite shr_m_of_loc. repeat split; lia.
  - rewrite shr_m_div by (rewrite shr_m_of_loc; lia).
    rewrite shr_m_of_loc.
    destruct (shifted_digits M (Zpos n)) as (m' & Hm & Hd); [lia | lia | ].
    exists m'. repeat split; [exact Hm | lia | lia].
  - exists M. rewrite shr_m_of_loc. repeat split; lia.
Qed.

Lemma round_nearest_even_pos (m : positive) (l : location) :
  exists q : positive,
    round_nearest_even (Zpos m) l = Zpos q /\
    Zpos (digits2_pos m) <= Zpos (digits2_pos q) <= Zpos (digits2_pos m) + 1.
Proof.
  assert (Hcases : round_nearest_even (Zpos m) l = Zpos m \/
                   round_nearest_even (Zpos m) l = Zpos m + 1).
  { destruct l as [ | []]; cbn [round_nearest_even]; auto.
    destruct (Z.even (Zpos m)); auto. }
  assert (Hup : Z.log2 (Zpos m + 1) <= Z.log2 (Zpos m) + 1).
  { apply Z.le_trans with (Z.log2 (2 * Zpos m)).
    - apply Z.log2_le_mono. lia.
    - rewrite Z.log2_double by lia. lia. }
  assert (Hdown : Z.log2 (Zpos m) <= Z.log2 (Zpos m + 1))
    by (apply Z.log2_le_mono; lia).
  destruct Hcases as [-> | ->].
  - exists m. split; [reflexivity | lia].
  - exists (m + 1)%positive. split; [reflexivity | ].
    rewrite !digits_log2. rewrite Pos2Z.inj_add. lia.
Qed.

Lemma binary_round_aux_pos (s : bool) (M : positive) (E : Z) (l : location) :
  -1074 < E + Zpos (digits2_pos M) ->
  match binary_round_aux prec emax s (Zpos M) E l with
  | S754_finite s' m e =>
      s' = s /\ E <= e /\
      (E <= fexp prec emax (Zpos (digits2_pos M) + E) ->
       bounded prec emax m e = true)
  | S754_infinity s' =>
      s' = s /\
      (E <= fexp prec emax (Zpos (digits2_pos M) + E) ->
       1023 < Zpos (digits2_pos M) + E)
  | _ => False
  end.
Proof.
  intro H. unfold binary_round_aux.
  destruct (shr_fexp_pos M E l H) as (m1 & Hm1 & He1 & Hd1).
  destruct (shr_fexp prec emax (Zpos M) E l) as [mrs1 e1].
  cbn [fst snd] in Hm1, He1, Hd1. rewrite Hm1.
  destruct (round_nearest_even_pos m1 (loc_of_shr_record mrs1))
    as (q & -> & Hq).
  assert (H2 : -1074 < e1 + Zpos (digits2_pos q)) by lia.
  destruct (shr_fexp_pos q e1 loc_Exact H2) as (m2 & Hm2 & He2 & Hd2).
  destruct (shr_fexp prec emax (Zpos q) e1 loc_Exact) as [mrs2 e2].
  cbn [fst snd] in Hm2, He2, Hd2. rewrite Hm2.
  rewrite fexp64_eq in He1, He2.
  destruct (e2 <=? emax - prec) eqn:Hle.
  2:{ split; [reflexivity | ]. rewrite fexp64_eq. intro Hcan.
      apply Z.leb_gt in Hle. change (emax - prec) with 971 in Hle. lia. }
  split; [reflexivity | ]. split; [lia | ].
  rewrite fexp64_eq. intro Hcan.
  unfold bounded, canonical_mantissa. rewrite Hle, andb_true_r.
  rewrite fexp64_eq. apply Z.eqb_eq. lia.
Qed.

Lemma digits_iter_xO (m d : positive) :
  Zpos (digits2_pos (Pos.iter xO m d)) = Zpos (digits2_pos m) + Zpos d.
Proof.
  induction d as [ | d IH] using Pos.peano_ind.
  - cbn. lia.
  - rewrite Pos.iter_succ. cbn [digits2_pos]. lia.
Qed.

Lemma binary_round_pos (s : bool) (M : positive) (E : Z) :
  -1074 < E + Zpos (digits2_pos M) ->
  match binary_round prec emax s M E with
  | S754_finite s' m e =>
      s' = s /\ Z.min E (fexp prec emax (Zpos (digits2_pos M) + E)) <= e /\
      bounded prec emax m e = true
  | S754_infinity s' => s' = s /\ 1023 < Zpos (digits2_pos M) + E
  | _ => False
  end.
Proof.
  intro H. unfold binary_round, shl_align.
  set (e' := fexp prec emax (Zpos (digits2_pos M) + E)).
  assert (He' : e' = Z.max (Zpos (digits2_pos M) + E - 53) (-1074))
    by reflexivity.
  destruct (e' - E) as [ | d | d] eqn:Ed.
  - pose proof (binary_round_aux_pos s M E loc_Exact H) as B.
    fold e' in B.
    destruct (binary_round_aux prec emax s (Zpos M) E loc_Exact);
      try exact B.
    + destruct B as (Hs & Hover). split; [exact Hs | apply Hover; lia].
    + destruct B as (Hs & Hle & Hb). repeat split; [exact Hs | lia | ].
      apply Hb. lia.
  - pose proof (binary_round_aux_pos s M E loc_Exact H) as B.
    fold e' in B.
    destruct (binary_round_aux prec emax s (Zpos M) E loc_Exact);
      try exact B.
    + destruct B as (Hs & Hover). split; [exact Hs | apply Hover; lia].
    + destruct B as (Hs & Hle & Hb). repeat split; [exact Hs | lia | ].
      apply Hb. lia.
  - pose proof (digits_iter_xO M d) as Hd.
    assert (H' : -1074 < e' + Zpos (digits2_pos (Pos.iter xO M d))) by lia.
    pose proof (binary_round_aux_pos s (Pos.iter xO M d) e' loc_Exact H')
      as B.
    rewrite fexp64_eq in B.
    destruct (binary_round_aux prec emax s (Zpos (Pos.iter xO M d)) e'
                loc_Exact); try exact B.
    + destruct B as (Hs & Hover). split; [exact Hs | ].
      assert (1023 < Zpos (digits2_pos (Pos.iter xO M d)) + e') by
        (apply Hover; lia).
      lia.
    + destruct B as (Hs & Hle & Hb). repeat split; [exact Hs | lia | ].
      apply Hb. lia.
Qed.

Local Open Scope float_scope.

Lemma Prim2SF_zero : Prim2SF 0 = S754_zero false.
Proof. reflexivity. Qed.

Lemma Prim2SF_gib : Prim2SF 1073741824 = S754_finite false 4503599627370496 (-22).
Proof. reflexivity. Qed.

Lemma ltb_zero (g : float) : (0 <? g) = SFpositive (Prim2SF g).
Proof.
  rewrite ltb_spec, Prim2SF_zero. unfold SFltb, SFcompare, SFpositive.
  destruct (Prim2SF g) as [s | s | | s m e]; try reflexivity;
    destruct s; reflexivity.
Qed.

Lemma mul_gib_sign (g : float) : (0 <? g * 1073741824) = (0 <? g).
Proof.
  rewrite !ltb_zero, mul_spec, Prim2SF_gib.
  pose proof (Prim2SF_valid g) as Hv.
  destruct (Prim2SF g) as [s | s | | s m e]; try reflexivity.
  - destruct s; reflexivity.
  - cbn [valid_binary] in Hv. unfold bounded, canonical_mantissa in Hv.
    apply andb_prop in Hv as [Hc _]. apply Z.eqb_eq in Hc.
    rewrite fexp64_eq in Hc.
    unfold SF64mul, SFmul.
    assert (Hdig : (Zpos (digits2_pos (m * 4503599627370496))
                    = Zpos (digits2_pos m) + 52)%Z).
    { rewrite !digits_log2, Pos2Z.inj_mul.
      change (Zpos 4503599627370496) with (2 ^ 52)%Z.
      rewrite Z.log2_mul_pow2 by lia. lia. }
    assert (Hd : (-1074 < (e + -22)
                   + Zpos (digits2_pos (m * 4503599627370496)))%Z) by lia.
    pose proof (binary_round_aux_pos (xorb s false)
                  (m * 4503599627370496) (e + -22) loc_Exact Hd) as B.
    destruct (binary_round_aux prec emax (xorb s false)
                (Z.pos (m * 4503599627370496)) (e + -22) loc_Exact)
      as [s' | s' | | s' m' e']; try contradiction.
    + destruct B as [-> _]. destruct s; reflexivity.
    + destruct B as [-> _]. destruct s; reflexivity.
Qed.

Lemma float_of_Z_sign (z : Z) :
  z <> 0%Z ->
  SFpositive (Prim2SF (SF2Prim (binary_normalize prec emax z 0 false)))
  = (0 <? z)%Z.
Proof.
  intro Hz. unfold binary_normalize.
  destruct z as [ | p | p]; [contradiction Hz; reflexivity | | ].
  - assert (H : (-1074 < 0 + Zpos (digits2_pos p))%Z) by lia.
    pose proof (binary_round_pos false p 0 H) as B.
    destruct (binary_round prec emax false p 0) as [s | s | | s m e];
      try contradiction.
    + destruct B as [-> _]. reflexivity.
    + destruct B as (-> & _ & Hb).
      rewrite Prim2SF_SF2Prim by exact Hb. reflexivity.
  - assert (H : (-1074 < 0 + Zpos (digits2_pos p))%Z) by lia.
    pose proof (binary_round_pos true p 0 H) as B.
    destruct (binary_round prec emax true p 0) as [s | s | | s m e];
      try contradiction.
    + destruct B as [-> _]. reflexivity.
    + destruct B as (-> & _ & Hb).
      rewrite Prim2SF_SF2Prim by exact Hb. reflexivity.
Qed.

Lemma ltb_zero_nonzero (f : float) : (0 <? f) = true -> (f =? 0) = false.
Proof.
  rewrite ltb_zero. rewrite FloatAxioms.eqb_spec. rewrite Prim2SF_zero.
  unfold SFpositive, SFeqb, SFcompare.
  destruct (Prim2SF f) as [s | s | | s m e]; try discriminate;
    destruct s; try discriminate; reflexivity.
Qed.

Lemma finite_not_infinity (x : spec_float) :
  valid_binary x = true ->
  match x with S754_infinity _ => False | _ => True end ->
  is_infinity (SF2Prim x) = false.
Proof.
  intros Hv Hx. unfold is_infinity.
  rewrite FloatAxioms.eqb_spec, abs_spec, Prim2SF_SF2Prim by exact Hv.
  change (Prim2SF infinity) with (S754_infinity false).
  destruct x as [s | s | | s m e]; try reflexivity. contradiction.
Qed.

(** Every int below [2^1023] in magnitude converts. *)
Lemma small_int_fits (z : Z) :
  (Z.abs z < 2 ^ 1023)%Z -> int_fits_float z = true.
Proof.
  intro Hz. unfold int_fits_float, float_of_int.
  rewrite finite_not_infinity; [reflexivity | | ].
  - unfold binary_normalize.
    destruct z as [ | p | p]; [reflexivity | | ].
    + assert (H : (-1074 < 0 + Zpos (digits2_pos p))%Z) by lia.
      pose proof (binary_round_pos false p 0 H) as B.
      destruct (binary_round prec emax false p 0); try contradiction;
        [reflexivity | apply B].
    + assert (H : (-1074 < 0 + Zpos (digits2_pos p))%Z) by lia.
      pose proof (binary_round_pos true p 0 H) as B.
      destruct (binary_round prec emax true p 0); try contradiction;
        [reflexivity | apply B].
  - unfold binary_normalize.
    destruct z as [ | p | p]; [exact I | | ].
    + assert (H : (-1074 < 0 + Zpos (digits2_pos p))%Z) by lia.
      pose proof (binary_round_pos false p 0 H) as B.
      destruct (binary_round prec emax false p 0); try exact I.
      destruct B as [_ B]. rewrite digits_log2 in B.
      assert (Z.log2 (Zpos p) < 1023)%Z
        by (apply Z.log2_lt_pow2; [lia | exact Hz]).
      lia.
    + assert (H : (-1074 < 0 + Zpos (digits2_pos p))%Z) by lia.
      pose proof (binary_round_pos true p 0 H) as B.
      destruct (binary_round prec emax true p 0); try exact I.
      destruct B as [_ B]. rewrite digits_log2 in B.
      assert (Z.log2 (Zpos p) < 1023)%Z
        by (apply Z.log2_lt_pow2; [lia | exact Hz]).
      lia.
Qed.

End Rounding.

Lemma free_pct_of_some (fb : option float) (alloc : pyval) (p : float) :
  free_pct_of fb alloc = Ok (Some p) <->
  exists b g : float,
    fb = Some b /\ py_truthy alloc = true /\ py_float alloc = Ok g /\
    (0 <? g * 1073741824)%float = true /\
    p = (b / (g * 1073741824) * 100)%float.
Proof.
  unfold free_pct_of. split.
  - destruct fb as [b | ]; [ | discriminate].
    destruct (py_truthy alloc); [ | discriminate].
    destruct (py_float alloc) as [g | e]; cbn; [ | discriminate].
    destruct (0 <? g * 1073741824)%float eqn:Hpos; [ | discriminate].
    intro H. injection H as <-.
    exists b, g. repeat split; assumption.
  - intros (b & g & -> & -> & -> & Hpos & ->). cbn.
    rewrite Hpos. reflexivity.
Qed.

Lemma float_of_int_sign (z : Z) (g : float) :
  float_of_int z = Ok g -> (0 <? g)%float = (0 <? z)%Z.
Proof.
  unfold float_of_int.
  destruct (is_infinity _); [discriminate | ].
  intro H. injection H as <-.
  destruct (Z.eq_dec z 0) as [-> | Hz]; [reflexivity | ].
  rewrite ltb_zero. apply float_of_Z_sign. exact Hz.
Qed.

Lemma positive_truthy (alloc : pyval) (g : float) :
  py_float alloc = Ok g -> (0 <? g)%float = true -> py_truthy alloc = true.
Proof.
  destruct alloc as [ | z | f]; cbn.
  - discriminate.
  - intros H Hg. rewrite (float_of_int_sign z g H) in Hg.
    apply Z.ltb_lt in Hg.
    replace (z =? 0)%Z with false by (symmetry; apply Z.eqb_neq; lia).
    reflexivity.
  - intros H Hg. injection H as ->.
    rewrite (ltb_zero_nonzero g Hg). reflexivity.
Qed.

(** C8. The free-space percentage is free bytes / (allocated GB x 1024^3)
    x 100, and it is defined exactly when the free-byte reading is known and
    the allocated storage is known and positive; otherwise it is unknown.
    100 GB allocated with 10,737,418,240 bytes free is exactly 10 percent,
    ALERT at the default cutoff 10. *)
Theorem free_space_percent (t : thresholds) (reg : string)
  (o : observation) (a : assessment) :
  assess t reg o = Ok a ->
  (forall p : float,
     free_pct a = Some p <->
     exists b g : float,
       free_store_b o = Some b /\
       py_float (AllocatedStorage (db o)) = Ok g /\
       (0 <? g)%float = true /\
       p = (b / (g * 1073741824) * 100)%float) /\
  (forall (z : Z) (g : float),
     AllocatedStorage (db o) = PyInt z -> float_of_int z = Ok g ->
     ((0 <? g)%float = true <-> (0 < z)%Z)) /\
  (free_store_b o = None -> free_pct a = None) /\
  (AllocatedStorage (db o) = PyNone -> free_pct a = None) /\
  (forall z : Z,
     AllocatedStorage (db o) = PyInt z -> (z <= 0)%Z -> free_pct a = None) /\
  (free_store_b o = Some 10737418240%float ->
   AllocatedStorage (db o) = PyInt 100 ->
   free_pct a = Some 10%float /\
   (FREE_ALERT t = 10%float ->
    free_alert a = true /\ free_lvl a = "ALERT" /\
    free_cell (the_row a) = "🔴 10%")).
Proof.
  intro H. assess_cases H.
  assert (Hsome : forall p : float,
     fp = Some p <->
     exists b g : float,
       free_store_b o = Some b /\
       py_float (AllocatedStorage (db o)) = Ok g /\
       (0 <? g)%float = true /\
       p = (b / (g * 1073741824) * 100)%float).
  { intro p. split.
    - intros ->. apply free_pct_of_some in Hfree.
      destruct Hfree as (b & g & Hb & _ & Hg & Hpos & Hp).
      rewrite mul_gib_sign in Hpos. exists b, g. repeat split; assumption.
    - intros (b & g & Hb & Hg & Hpos & Hp).
      assert (E : free_pct_of (free_store_b o) (AllocatedStorage (db o))
                  = Ok (Some p)).
      { apply free_pct_of_some. exists b, g.
        repeat split; try assumption.
        - apply (positive_truthy _ g); assumption.
        - rewrite mul_gib_sign. exact Hpos. }
      rewrite E in Hfree. injection Hfree as <-. reflexivity. }
  split; [exact Hsome | ].
  split.
  { intros z g _ Hg. rewrite (float_of_int_sign z g Hg). apply Z.ltb_lt. }
  split.
  { intro E. rewrite E in Hfree. cbn in Hfree. injection Hfree as <-.
    reflexivity. }
  split.
  { intro E. rewrite E in Hfree. unfold free_pct_of in Hfree.
    destruct (free_store_b o); cbn in Hfree; injection Hfree as <-;
      reflexivity. }
  split.
  { intros z Ez Hz.
    destruct fp as [p | ]; [ | reflexivity].
    destruct (proj1 (Hsome p) eq_refl) as (b & g & _ & Hg & Hpos & _).
    rewrite Ez in Hg. cbn in Hg.
    rewrite (float_of_int_sign z g Hg) in Hpos.
    apply Z.ltb_lt in Hpos. lia. }
  intros Eb Ea. rewrite Eb, Ea in Hfree.
  vm_compute in Hfree. injection Hfree as <-.
  split; [reflexivity | ].
  intros ->. repeat split; reflexivity.
Qed.

(** ** The issue flag, on what was observed *)

Lemma opt_bool_true (x : option bool) : opt_bool x = true <-> x = Some true.
Proof.
  destruct x as [[ | ] | ]; cbn; split; intro H;
    reflexivity || discriminate H.
Qed.

Lemma not_opt_bool_true (x : option bool) :
  negb (opt_bool x) = true <-> x <> Some true.
Proof.
  destruct x as [[ | ] | ]; cbn; split; intro H;
    try reflexivity; try discriminate H; try (intro E; discriminate E).
  contradiction H; reflexivity.
Qed.

Lemma at_least_spec (v : option float) (c : float) :
  at_least v c = true <->
  exists x : float, v = Some x /\ (c <=? x)%float = true.
Proof.
  destruct v as [x | ]; cbn; split.
  - intro H. exists x. split; [reflexivity | exact H].
  - intros (y & E & H). injection E as ->. exact H.
  - discriminate.
  - intros (y & E & _). discriminate E.
Qed.

Lemma at_least_ms_spec (v : option float) (c : float) :
  at_least (to_ms v) c = true <->
  exists w : float, v = Some w /\ (c <=? w * 1000)%float = true.
Proof.
  destruct v as [x | ]; cbn; split.
  - intro H. exists x. split; [reflexivity | exact H].
  - intros (y & E & H). injection E as ->. exact H.
  - discriminate.
  - intros (y & E & _). discriminate E.
Qed.

Lemma free_pct_of_positive (fb : option float) (alloc : pyval)
  (fp : option float) (p : float) :
  free_pct_of fb alloc = Ok fp ->
  (fp = Some p <->
   exists b g : float,
     fb = Some b /\ py_float alloc = Ok g /\ (0 <? g)%float = true /\
     p = (b / (g * 1073741824) * 100)%float).
Proof.
  intro Hfree. split.
  - intros ->. apply free_pct_of_some in Hfree.
    destruct Hfree as (b & g & Hb & _ & Hg & Hpos & Hp).
    rewrite mul_gib_sign in Hpos. exists b, g. repeat split; assumption.
  - intros (b & g & Hb & Hg & Hpos & Hp).
    assert (E : free_pct_of fb alloc = Ok (Some p)).
    { apply free_pct_of_some. exists b, g.
      repeat split; try assumption.
      - apply (positive_truthy _ g); assumption.
      - rewrite mul_gib_sign. exact Hpos. }
    rewrite E in Hfree. injection Hfree as <-. reflexivity.
Qed.

Lemma at_most_free_spec (fb : option float) (alloc : pyval)
  (fp : option float) (c : float) :
  free_pct_of fb alloc = Ok fp ->
  (at_most fp c = true <->
   exists b g : float,
     fb = Some b /\ py_float alloc = Ok g /\ (0 <? g)%float = true /\
     (b / (g * 1073741824) * 100 <=? c)%float = true).
Proof.
  intro Hfree. split.
  - destruct fp as [p | ]; cbn; [ | discriminate]. intro Hle.
    destruct (proj1 (free_pct_of_positive fb alloc _ p Hfree) eq_refl)
      as (b & g & Hb & Hg & Hpos & ->).
    exists b, g. repeat split; assumption.
  - intros (b & g & Hb & Hg & Hpos & Hle).
    assert (E : fp = Some (b / (g * 1073741824) * 100)%float).
    { apply (free_pct_of_positive fb alloc fp _ Hfree).
      exists b, g. repeat split; assumption. }
    rewrite E. exact Hle.
Qed.

Lemma autoscale_disabled_spec (x y : pyval) :
  autoscale_disabled_of x y = true <->
  ~ exists a m : Z, x = PyInt a /\ y = PyInt m /\ (a < m)%Z.
Proof.
  unfold autoscale_disabled_of.
  destruct x as [ | a | fa]; destruct y as [ | m | fm]; cbn;
    (split;
     [ try (intros _ (a' & m' & Ea & Em & _); discriminate)
     | try (intros _; reflexivity) ]).
  - intros H (a' & m' & Ea & Em & Hlt).
    injection Ea as <-. injection Em as <-.
    apply negb_true_iff in H. apply Z.gtb_lt in Hlt.
    rewrite Z.gtb_ltb in H, Hlt. congruence.
  - intro Hn. apply negb_true_iff.
    destruct (m >? a)%Z eqn:E; [ | reflexivity].
    exfalso. apply Hn. exists a, m.
    apply Z.gtb_lt in E. split; [reflexivity | split; [reflexivity | lia]].
Qed.

Lemma alert_flags_spec (t : thresholds) (reg : string) (o : observation)
  (a : assessment) :
  assess t reg o = Ok a ->
  (public_alert a = true <-> is_public o) /\
  (enc_disabled a = true <-> not_encrypted o) /\
  (write_alert a = true <-> write_over t o) /\
  (read_alert a = true <-> read_over t o) /\
  (cpu_alert a = true <-> cpu_over t o) /\
  (free_alert a = true <-> free_under t o) /\
  (autoscale_disabled a = true <-> no_autoscaling o).
Proof.
  intro H. assess_cases H.
  split; [apply opt_bool_true | ].
  split; [apply not_opt_bool_true | ].
  split; [apply at_least_ms_spec | ].
  split; [apply at_least_ms_spec | ].
  split; [apply at_least_spec | ].
  split; [exact (at_most_free_spec _ _ _ _ Hfree) | ].
  apply autoscale_disabled_spec.
Qed.

Lemma issue_flag_any (t : thresholds) (reg : string) (o : observation)
  (a : assessment) :
  assess t reg o = Ok a ->
  (row_has_issue a = true <->
   public_alert a = true \/ enc_disabled a = true \/ write_alert a = true \/
   read_alert a = true \/ cpu_alert a = true \/ free_alert a = true \/
   autoscale_disabled a = true).
Proof. intro H. assess_cases H. apply any7. Qed.

Lemma issue_flag_spec (t : thresholds) (reg : string) (o : observation)
  (a : assessment) :
  assess t reg o = Ok a -> (row_has_issue a = true <-> in_bad_state t o).
Proof.
  intro H.
  destruct (alert_flags_spec t reg o a H) as (F1 & F2 & F3 & F4 & F5 & F6 & F7).
  unfold in_bad_state.
  rewrite (issue_flag_any t reg o a H), F1, F2, F3, F4, F5, F6, F7.
  reflexivity.
Qed.

(** C1. An instance is flagged iff one of the seven dimensions is in its
    ALERT or bad state: it is publicly accessible, not encrypted, its write
    latency, read latency or CPU reading is at least the ALERT cutoff, its
    free-space percentage is at most the ALERT cutoff, or its storage cannot
    autoscale.  Each alert flag and each level is tied to the entry, the
    readings and the cutoffs; pending maintenance has no part in the flag, so
    an instance in none of the seven states is left out of the failing rows
    even when its pending-maintenance level is WARN. *)
Theorem row_has_issue_iff_alert (t : thresholds) (reg : string)
  (o : observation) (a : assessment) :
  assess t reg o = Ok a ->
  ((public_alert a = true <-> is_public o) /\
   (enc_disabled a = true <-> not_encrypted o) /\
   (write_alert a = true <-> write_over t o) /\
   (read_alert a = true <-> read_over t o) /\
   (cpu_alert a = true <-> cpu_over t o) /\
   (free_alert a = true <-> free_under t o) /\
   (autoscale_disabled a = true <-> no_autoscaling o)) /\
  ((public_lvl a = "ALERT" <-> is_public o) /\
   (enc_lvl a = "ALERT" <-> not_encrypted o) /\
   (write_lvl a = "ALERT" <-> write_over t o) /\
   (read_lvl a = "ALERT" <-> read_over t o) /\
   (cpu_lvl a = "ALERT" <-> cpu_over t o) /\
   (free_lvl a = "ALERT" <-> free_under t o) /\
   (autoscale_lvl a = "ALERT" <-> no_autoscaling o)) /\
  (row_has_issue a = true <-> in_bad_state t o) /\
  (row_has_issue a = true <->
     public_lvl a = "ALERT" \/ enc_lvl a = "ALERT" \/ write_lvl a = "ALERT" \/
     read_lvl a = "ALERT" \/ cpu_lvl a = "ALERT" \/ free_lvl a = "ALERT" \/
     autoscale_lvl a = "ALERT") /\
  (~ in_bad_state t o ->
   row_has_issue a = false /\
   failing [the_row a] [row_has_issue a] = []) /\
  (public_lvl a = "OK" -> enc_lvl a = "OK" -> write_lvl a = "OK" ->
   read_lvl a = "OK" -> cpu_lvl a = "OK" -> free_lvl a = "OK" ->
   autoscale_lvl a = "OK" -> pending_lvl a = "WARN" ->
   row_has_issue a = false /\
   failing [the_row a] [row_has_issue a] = []).
Proof.
  intro H.
  pose proof (alert_flags_spec t reg o a H) as Hflags.
  assert (Hlvl :
    (public_lvl a = "ALERT" <-> public_alert a = true) /\
    (enc_lvl a = "ALERT" <-> enc_disabled a = true) /\
    (write_lvl a = "ALERT" <-> write_alert a = true) /\
    (read_lvl a = "ALERT" <-> read_alert a = true) /\
    (cpu_lvl a = "ALERT" <-> cpu_alert a = true) /\
    (free_lvl a = "ALERT" <-> free_alert a = true) /\
    (autoscale_lvl a = "ALERT" <-> autoscale_disabled a = true)).
  { assess_cases H.
    repeat (split; [apply level2_alert || apply level3_alert | ]).
    apply level2_alert. }
  pose proof (issue_flag_any t reg o a H) as Hany.
  destruct Hflags as (F1 & F2 & F3 & F4 & F5 & F6 & F7).
  destruct Hlvl as (L1 & L2 & L3 & L4 & L5 & L6 & L7).
  pose proof (issue_flag_spec t reg o a H) as Hbad.
  assert (Hiff : row_has_issue a = true <->
     public_lvl a = "ALERT" \/ enc_lvl a = "ALERT" \/ write_lvl a = "ALERT" \/
     read_lvl a = "ALERT" \/ cpu_lvl a = "ALERT" \/ free_lvl a = "ALERT" \/
     autoscale_lvl a = "ALERT").
  { rewrite Hany, L1, L2, L3, L4, L5, L6, L7. reflexivity. }
  split; [repeat split; tauto | ].
  split; [repeat split; tauto | ].
  split; [exact Hbad | ]. split; [exact Hiff | ].
  split.
  - intro Hn.
    assert (Hno : row_has_issue a = false).
    { apply not_true_is_false. intro E. apply Hn, Hbad, E. }
    split; [exact Hno | ]. rewrite Hno. reflexivity.
  - intros Hp He Hw Hr Hc Hf Ha _.
    assert (Hno : row_has_issue a = false).
    { apply not_true_is_false. intro E. apply Hiff in E.
      rewrite Hp, He, Hw, Hr, Hc, Hf, Ha in E.
      repeat (destruct E as [E | E]; [discriminate E | ]). discriminate E. }
    split; [exact Hno | ].
    rewrite Hno. reflexivity.
Qed.

(** ** The failing-row filter *)

Lemma failing_cons (r : row) (bad : bool) (rows : list row)
  (flags : list bool) :
  failing (r :: rows) (bad :: flags) =
  if bad then r :: failing rows flags else failing rows flags.
Proof. unfold failing. cbn. destruct bad; reflexivity. Qed.

Lemma failing_reports (reports : list (row * bool)) :
  failing (map fst reports) (map snd reports) = filterFailing reports.
Proof.
  induction reports as [ | [r bad] rest IH]; [reflexivity | ].
  cbn [map fst snd filterFailing]. rewrite failing_cons, IH. reflexivity.
Qed.

Lemma filterFailing_subseq (reports : list (row * bool)) :
  Subseq (filterFailing reports) (map fst reports).
Proof.
  induction reports as [ | [r bad] rest IH]; cbn.
  - constructor.
  - destruct bad; constructor; exact IH.
Qed.

Lemma filterFailing_in (reports : list (row * bool)) (r : row) :
  In r (filterFailing reports) <-> In (r, true) reports.
Proof.
  induction reports as [ | [r' bad] rest IH]; cbn; [tauto | ].
  destruct bad; cbn; rewrite IH; split.
  - intros [-> | H]; [left; reflexivity | right; exact H].
  - intros [E | H]; [injection E as ->; left; reflexivity | right; exact H].
  - intro H; right; exact H.
  - intros [E | H]; [discriminate E | exact H].
Qed.

Lemma filterFailing_nil (reports : list (row * bool)) :
  filterFailing reports = [] <-> forall rb, In rb reports -> snd rb = false.
Proof.
  induction reports as [ | [r bad] rest IH]; cbn.
  - split; [intros _ rb [] | reflexivity].
  - destruct bad; split.
    + discriminate.
    + intro H. specialize (H (r, true) (or_introl eq_refl)). discriminate H.
    + intros H rb [<- | Hin]; [reflexivity | ].
      apply IH; assumption.
    + intro H. apply IH. intros rb Hin. apply H. right. exact Hin.
Qed.

Lemma filterFailing_length (reports : list (row * bool)) :
  List.length (filterFailing reports)
  = List.length (filter (fun rb => snd rb) reports).
Proof.
  induction reports as [ | [r bad] rest IH]; cbn; [reflexivity | ].
  destruct bad; cbn; rewrite IH; reflexivity.
Qed.

(** C6. On the evaluated instances in listing order, the comprehension over
    [zip(rows, issue_flags)] returns exactly the rows whose flag is set, in
    their original relative order, and nothing when every instance passes. *)
Theorem failing_rows_filter (reports : list (row * bool)) :
  let rows := map fst reports in
  let issue_flags := map snd reports in
  failing rows issue_flags = filterFailing reports /\
  Subseq (failing rows issue_flags) rows /\
  (forall r, In r (failing rows issue_flags) <-> In (r, true) reports) /\
  List.length (failing rows issue_flags)
    = List.length (filter (fun rb => snd rb) reports) /\
  ((forall rb, In rb reports -> snd rb = false) ->
   failing rows issue_flags = []) /\
  ((forall rb, In rb reports -> snd rb = true) ->
   failing rows issue_flags = rows).
Proof.
  cbn zeta. rewrite failing_reports.
  split; [reflexivity | ].
  split; [apply filterFailing_subseq | ].
  split; [apply filterFailing_in | ].
  split; [apply filterFailing_length | ].
  split; [apply filterFailing_nil | ].
  induction reports as [ | [r bad] rest IH]; intro H; [reflexivity | ].
  pose proof (H (r, bad) (or_introl eq_refl)) as Hb. cbn in Hb. subst bad.
  cbn. f_equal. apply IH. intros rb Hin. apply H. right. exact Hin.
Qed.

(** ** The loop and the three outcomes *)




(** Realistic data are evaluable: storage sizes below [2^1023] GB and a
    finite connection count. *)
Lemma evaluable_in_range (o : observation) :
  (forall z, AllocatedStorage (db o) = PyInt z -> (Z.abs z < 2 ^ 1023)%Z) ->
  (forall c, conns o = Some c -> finite_float c = true) ->
  evaluable o = true.
Proof.
  intros Hz Hc. unfold evaluable. apply andb_true_intro. split.
  - destruct (free_store_b o) as [b | ]; [ | reflexivity].
    destruct (AllocatedStorage (db o)) as [ | z | f]; try reflexivity.
    apply small_int_fits. apply Hz. reflexivity.
  - destruct (conns o) as [c | ]; [ | reflexivity].
    apply Hc. reflexivity.
Qed.

Lemma loop_app (t : thresholds) (reg : string) (obs : list observation) :
  forall (asl : list assessment) (rows : list row) (flags : list bool),
    Forall2 (fun o a => assess t reg o = Ok a) obs asl ->
    loop t reg obs rows flags
    = Ok ((rows ++ map the_row asl)%list,
          (flags ++ map row_has_issue asl)%list).
Proof.
  induction obs as [ | o rest IH]; intros asl rows flags HF;
    inversion HF as [ | o' a rest' asl' Ha Hrest]; subst; cbn.
  - rewrite !app_nil_r. reflexivity.
  - rewrite Ha. cbn. rewrite (IH asl' _ _ Hrest).
    rewrite <- !app_assoc. reflexivity.
Qed.


Lemma failing_assessments (asl : list assessment) :
  failing (map the_row asl) (map row_has_issue asl)
  = map the_row (filter row_has_issue asl).
Proof.
  induction asl as [ | a rest IH]; [reflexivity | ].
  cbn [map filter]. rewrite failing_cons, IH.
  destruct (row_has_issue a); reflexivity.
Qed.

(** ** The two renderers *)

Lemma append_assoc (a b c : string) : (a ++ b) ++ c = a ++ (b ++ c).
Proof.
  induction a as [ | x a IH]; cbn; [reflexivity | ].
  rewrite IH. reflexivity.
Qed.

Lemma append_empty (s : string) : s ++ EmptyString = s.
Proof. induction s as [ | c s IH]; cbn; [reflexivity | rewrite IH; reflexivity]. Qed.

Lemma email_tr_cells (r : row) : email_tr r = tr_of_cells (first11 r).
Proof.
  unfold email_tr, tr_of_cells, first11, right_aligned, td.
  cbn [combine map fst snd String.concat].
  repeat rewrite append_assoc. reflexivity.
Qed.

Lemma teams_set_texts (r : row) : set_texts (teams_set r) = teams_row r.
Proof. reflexivity. Qed.

Lemma card_rows (title : string) (rows : list row) :
  card_data_rows (build_card title rows) = map teams_row rows.
Proof.
  unfold card_data_rows, build_card, card_body. cbn [body skipn app].
  rewrite map_map. apply map_ext. intro r. apply teams_set_texts.
Qed.

Lemma dispatch_same_rows (cfg : config) (title : string)
  (failing_rows : list row) :
  exists post : list effect,
    dispatch cfg title failing_rows
    = (post ++ [SendEmailSES title
                  (fst (_build_email_html title failing_rows))
                  (snd (_build_email_html title failing_rows))])%list /\
    (post = [] \/
     exists url, post = [PostToTeams url (build_card title failing_rows)]).
Proof.
  unfold dispatch.
  destruct (_build_email_html title failing_rows) as [html txt]. cbn [fst snd].
  destruct (str_truthy
              (if str_truthy (webhook cfg) then webhook cfg
               else environ_webhook cfg)).
  - eexists. split; [reflexivity | right; eexists; reflexivity].
  - exists []. split; [reflexivity | left; reflexivity].
Qed.

(** C5. The card and the email are rendered from the same sequence of
    failing rows, in the same order and with one data row per failing row;
    in every row the ten cells after the first (glyph and label of each
    dimension) are the same strings in both, and only the first cell differs,
    in its markup alone: the card links the identifier, and on a second line
    the name tag when there is one, to the instance's console page as
    Markdown links, and the email links the same texts to the same page as
    HTML anchors. *)
Theorem card_and_email_agree (title : string) (failing_rows : list row) :
  let c := build_card title failing_rows in
  let html := fst (_build_email_html title failing_rows) in
  let txt := snd (_build_email_html title failing_rows) in
  card_data_rows c
  = map (fun r => db_cell_teams r :: shared_cells r) failing_rows /\
  html
  = html_prefix title
    ++ String.concat newline
         (map (fun r => tr_of_cells (db_cell_email r :: shared_cells r))
            failing_rows)
    ++ "</table></body></html>" /\
  txt
  = title ++ newline
    ++ String.concat newline
         (map (fun r => String.concat ", " (db_cell_email r :: shared_cells r))
            failing_rows) /\
  List.length (card_data_rows c) = List.length failing_rows /\
  List.length (map email_tr failing_rows) = List.length failing_rows /\
  (forall cfg : config,
     exists post : list effect,
       dispatch cfg title failing_rows
       = (post ++ [SendEmailSES title html txt])%list /\
       (post = [] \/ exists url, post = [PostToTeams url c])) /\
  (forall (t : thresholds) (reg : string) (o : observation) (a : assessment),
     assess t reg o = Ok a ->
     let dbid := match DBInstanceIdentifier (db o) with
                 | Some i => i
                 | None => "-"
                 end in
     let url := console_url reg dbid in
     match name_tag o with
     | Some (String c n) =>
         db_cell_teams (the_row a)
         = markdown_link dbid url ++ newline
           ++ markdown_link (String c n) url /\
         db_cell_email (the_row a)
         = html_anchor dbid url ++ "<br/>" ++ html_anchor (String c n) url
     | _ =>
         db_cell_teams (the_row a) = markdown_link dbid url /\
         db_cell_email (the_row a) = html_anchor dbid url
     end).
Proof.
  cbn zeta.
  split; [apply card_rows | ].
  split.
  { unfold _build_email_html, html_prefix. cbn [fst].
    rewrite (map_ext email_tr
               (fun r => tr_of_cells (db_cell_email r :: shared_cells r))
               email_tr_cells).
    repeat rewrite append_assoc. reflexivity. }
  split; [reflexivity | ].
  split; [rewrite card_rows; apply length_map | ].
  split; [apply length_map | ].
  split; [intro cfg; apply dispatch_same_rows | ].
  intros t reg o a H. assess_cases H.
  unfold db_cell_teams_of, db_cell_email_of, markdown_link, html_anchor,
    console_url, _rds_link.
  destruct (name_tag o) as [[ | c n] | ]; cbn [str_truthy];
    rewrite ?append_empty, ?append_assoc; cbn [append];
    rewrite ?append_assoc; split; reflexivity.
Qed.

(** ** How a run ends *)






(** ** Readings on a cutoff *)

Lemma SFeqb_leb (x y : spec_float) :
  SFeqb x y = true -> SFleb x y = true /\ SFleb y x = true.
Proof.
  unfold SFeqb, SFleb.
  destruct x as [sx | sx | | sx mx ex], y as [sy | sy | | sy my ey];
    try (destruct sx); try (destruct sy); cbn;
    try discriminate; try (intros _; split; reflexivity);
    (destruct (ex ?= ey)%Z eqn:He; try discriminate;
     apply Z.compare_eq in He; subst ey; rewrite Z.compare_refl;
     destruct (Pos.compare_cont Eq mx my) eqn:Hm; try discriminate;
     apply Pos.compare_eq in Hm; subst my;
     rewrite Pos.compare_cont_refl; intros _; split; reflexivity).
Qed.

Lemma float_eqb_leb (x y : float) :
  (x =? y)%float = true ->
  (x <=? y)%float = true /\ (y <=? x)%float = true.
Proof.
  rewrite FloatAxioms.eqb_spec, !leb_spec. apply SFeqb_leb.
Qed.

(** What does hold on the cutoffs: a reading equal to the ALERT cutoff is
    ALERT, ALERT has precedence over WARN, and a non-zero reading equal to
    the WARN cutoff that misses the ALERT cutoff is WARN. *)
Lemma cutoff_levels (v alert_c warn_c : float) :
  ((v =? alert_c)%float = true ->
   level3 (at_least (Some v) alert_c) (truthy_at_least (Some v) warn_c)
   = "ALERT" /\
   level3 (at_most (Some v) alert_c) (truthy_at_most (Some v) warn_c)
   = "ALERT") /\
  (at_least (Some v) alert_c = true ->
   level3 (at_least (Some v) alert_c) (truthy_at_least (Some v) warn_c)
   = "ALERT") /\
  (at_most (Some v) alert_c = true ->
   level3 (at_most (Some v) alert_c) (truthy_at_most (Some v) warn_c)
   = "ALERT") /\
  ((v =? warn_c)%float = true -> (v =? 0)%float = false ->
   (at_least (Some v) alert_c = false ->
    level3 (at_least (Some v) alert_c) (truthy_at_least (Some v) warn_c)
    = "WARN") /\
   (at_most (Some v) alert_c = false ->
    level3 (at_most (Some v) alert_c) (truthy_at_most (Some v) warn_c)
    = "WARN")).
Proof.
  split; [ | split; [ | split; [ | ] ] ].
  - intro E. apply float_eqb_leb in E as [E1 E2]. cbn.
    rewrite E1, E2. split; reflexivity.
  - intros ->. reflexivity.
  - intros ->. reflexivity.
  - intros E Hnz. apply float_eqb_leb in E as [E1 E2].
    unfold truthy_at_least, truthy_at_most, float_truthy.
    rewrite Hnz, E1, E2. cbn [negb andb].
    split; intros ->; reflexivity.
Qed.

(** C3, at the input where the code departs from it.  With the write-latency
    WARN cutoff set to 0 and the ALERT cutoff at 300, a write latency of
    exactly 0 s sits on the WARN cutoff and misses the ALERT cutoff, yet the
    level computed for it is OK (green glyph), not WARN: the WARN test is
    guarded by the truth value of the reading, and zero is falsy, whereas the
    ALERT test is guarded by [is not None]. *)
Theorem zero_on_warn_cutoff_reads_ok :
  exists a : assessment,
    assess zero_warn_thresholds "us-east-1" idle_obs = Ok a /\
    write_ms a = Some 0%float /\
    (0 =? WRITE_WARN zero_warn_thresholds)%float = true /\
    (WRITE_WARN zero_warn_thresholds <=? 0)%float = true /\
    (WRITE_ALERT zero_warn_thresholds <=? 0)%float = false /\
    write_alert a = false /\
    write_lvl a = "OK" /\
    write_lvl a <> "WARN" /\
    write_cell (the_row a) = "🟢 0 ms".
Proof.
  eexists. split; [reflexivity | ].
  cbn. repeat split; try reflexivity. discriminate.
Qed.

(** * More of the module *)

Ltac assess_fields H :=
  cbv beta zeta delta [assess] in H;
  match type of H with
  | context [free_pct_of ?b ?g] =>
      destruct (free_pct_of b g) as [?fp | ?e] eqn:?Hfree;
      [ | discriminate H ]
  end;
  match type of H with
  | context [conns_cell_of ?c] =>
      destruct (conns_cell_of c) as [?cc | ?e] eqn:?Hconns;
      [ | discriminate H ]
  end;
  cbv beta iota delta [bind] in H;
  injection H as H; subst; cbn [write_ms read_ms cpu_pct free_pct
    public_alert enc_disabled write_alert read_alert cpu_alert free_alert
    autoscale_disabled row_has_issue pending_has pending_lvl autoscale_lvl
    public_lvl enc_lvl write_lvl read_lvl cpu_lvl free_lvl the_row
    db_cell_email engine public_cell enc_cell write_cell read_cell cpu_cell
    free_cell conns_cell pending_cell autoscale_cell db_cell_teams].

(** ** The latest datapoint *)

Lemma max_by_timestamp_found (rest : list datapoint) :
  forall (best : datapoint) (bt : Z) (pre mid : list datapoint)
         (dp : datapoint),
    Timestamp best = Some bt ->
    Forall (older_than bt) pre ->
    Forall (not_later_than bt) mid ->
    max_by_timestamp best bt rest = Some dp ->
    exists (pre' post' : list datapoint) (t : Z),
      (pre ++ best :: mid ++ rest)%list = (pre' ++ dp :: post')%list /\
      Timestamp dp = Some t /\
      Forall (older_than t) pre' /\ Forall (not_later_than t) post'.
Proof.
  induction rest as [ | x rest IH]; intros best bt pre mid dp Hb Hpre Hmid H.
  - cbn in H. injection H as <-. exists pre, mid, bt.
    rewrite app_nil_r. repeat split; assumption.
  - cbn in H. destruct (Timestamp x) as [u | ] eqn:Hx; [ | discriminate H].
    destruct (u >? bt)%Z eqn:Hgt.
    + apply Z.gtb_lt in Hgt.
      destruct (IH x u (pre ++ best :: mid)%list [] dp Hx) as
        (pre' & post' & t & Heq & Ht & Hp & Hq); try assumption.
      * apply Forall_app. split.
        -- eapply Forall_impl; [ | exact Hpre].
           intros y (w & Hy & Hw). exists w. split; [exact Hy | lia].
        -- constructor.
           ++ exists bt. split; [exact Hb | lia].
           ++ eapply Forall_impl; [ | exact Hmid].
              intros y (w & Hy & Hw). exists w. split; [exact Hy | lia].
      * constructor.
      * exists pre', post', t. split; [ | repeat split; assumption].
        rewrite <- Heq. cbn. rewrite <- !app_assoc. reflexivity.
    + assert (Hle : (u <= bt)%Z).
      { destruct (Z.gtb_spec u bt); [discriminate | assumption]. }
      destruct (IH best bt pre (mid ++ [x])%list dp Hb Hpre) as
        (pre' & post' & t & Heq & Ht & Hp & Hq); try assumption.
      * apply Forall_app. split; [exact Hmid | ].
        constructor; [ | constructor]. exists u. split; assumption.
      * exists pre', post', t. split; [ | repeat split; assumption].
        rewrite <- Heq. rewrite <- !app_assoc. reflexivity.
Qed.

Lemma max_by_timestamp_keeps (post : list datapoint) (dp : datapoint)
  (t : Z) :
  Forall (not_later_than t) post -> max_by_timestamp dp t post = Some dp.
Proof.
  induction 1 as [ | y post (u & Hy & Hu) _ IH]; cbn; [reflexivity | ].
  rewrite Hy.
  replace (u >? t)%Z with false
    by (symmetry; rewrite Z.gtb_ltb; apply Z.ltb_ge; lia).
  exact IH.
Qed.

Lemma max_by_timestamp_reaches (pre : list datapoint) :
  forall (best : datapoint) (bt : Z) (dp : datapoint) (t : Z)
         (post : list datapoint),
    (bt < t)%Z -> Forall (older_than t) pre -> Timestamp dp = Some t ->
    Forall (not_later_than t) post ->
    max_by_timestamp best bt (pre ++ dp :: post) = Some dp.
Proof.
  induction pre as [ | y pre IH]; intros best bt dp t post Hlt Hpre Hdp Hpost.
  - cbn. rewrite Hdp.
    replace (t >? bt)%Z with true by (symmetry; apply Z.gtb_lt; lia).
    apply max_by_timestamp_keeps. exact Hpost.
  - inversion Hpre as [ | y' pre' (u & Hy & Hu) Hpre']; subst.
    cbn. rewrite Hy.
    destruct (u >? bt)%Z; apply (IH _ _ dp t post); assumption || lia.
Qed.

(** X1. [_cw_latest] returns a value exactly when the answer holds
    datapoints that all carry a timestamp, and the value is the statistic of
    the first datapoint with the latest timestamp: every earlier datapoint is
    strictly older, no later one is more recent.  A failed call, a missing or
    empty datapoint list, a datapoint without timestamp, or a latest
    datapoint without the statistic all give no value. *)
Theorem cw_latest_is_latest (answer : option cw_response) (v : float) :
  _cw_latest answer = Some v <->
  exists (r : cw_response) (pre : list datapoint) (x : datapoint)
         (post : list datapoint) (t : Z),
    answer = Some r /\
    Datapoints r = Some (pre ++ x :: post)%list /\
    Timestamp x = Some t /\ Statistic x = Some v /\
    Forall (older_than t) pre /\ Forall (not_later_than t) post.
Proof.
  split.
  - unfold _cw_latest.
    destruct answer as [r | ]; [ | discriminate].
    destruct (Datapoints r) as [dps | ] eqn:Hd; [ | discriminate].
    destruct dps as [ | x rest]; [discriminate | ].
    destruct (Timestamp x) as [t0 | ] eqn:Hx; [ | discriminate].
    destruct (max_by_timestamp x t0 rest) as [best | ] eqn:Hm;
      [ | discriminate].
    intro Hv.
    destruct (max_by_timestamp_found rest x t0 [] [] best Hx
                (Forall_nil _) (Forall_nil _) Hm)
      as (pre' & post' & t & Heq & Ht & Hp & Hq).
    exists r, pre', best, post', t. cbn in Heq. rewrite <- Heq.
    repeat split; assumption.
  - intros (r & pre & x & post & t & -> & Hd & Hx & Hv & Hpre & Hpost).
    unfold _cw_latest. rewrite Hd.
    destruct pre as [ | y pre]; cbn [app].
    + rewrite Hx, (max_by_timestamp_keeps post x t Hpost). exact Hv.
    + inversion Hpre as [ | y' pre' (u & Hy & Hu) Hpre']; subst.
      rewrite Hy, (max_by_timestamp_reaches pre y u x t post); assumption.
Qed.

(** ** The Name tag *)

Lemma first_name_value_found (tags : list tag) (w : option string) :
  first_name_value tags = Some w <->
  exists (pre : list tag) (t : tag) (post : list tag),
    tags = (pre ++ t :: post)%list /\
    Forall (fun u => key_is_name u = false) pre /\
    key_is_name t = true /\ Value t = w.
Proof.
  induction tags as [ | u tags IH]; cbn.
  - split; [discriminate | ].
    intros (pre & t & post & H & _). destruct pre; discriminate H.
  - destruct (key_is_name u) eqn:Hu.
    + split.
      * intro H. injection H as <-. exists [], u, tags.
        repeat split; [constructor | exact Hu].
      * intros (pre & t & post & H & Hpre & Ht & Hw).
        destruct pre as [ | p pre]; cbn in H; injection H as -> ->.
        -- rewrite Hw. reflexivity.
        -- inversion Hpre; congruence.
    + rewrite IH. split.
      * intros (pre & t & post & -> & Hpre & Ht & Hw).
        exists (u :: pre), t, post.
        repeat split; [constructor; assumption | exact Ht | exact Hw].
      * intros (pre & t & post & H & Hpre & Ht & Hw).
        destruct pre as [ | p pre]; cbn in H; injection H as -> ->.
        -- congruence.
        -- inversion Hpre; subst. exists pre, t, post.
           repeat split; assumption.
Qed.

(** X2. [_get_name_tag] returns the value of the first tag whose key is
    "Name": it returns [v] exactly when the lookup answered, some tag named
    Name carries the value [v], and no tag before it is named Name.  A later
    Name tag never counts, even when the first one has no value. *)
Theorem name_tag_is_first_name (answer : option tags_response) (v : string) :
  _get_name_tag answer = Some v <->
  exists (r : tags_response) (pre : list tag) (t : tag) (post : list tag),
    answer = Some r /\
    TagList r = Some (pre ++ t :: post)%list /\
    Forall (fun u => Key u <> Some "Name") pre /\
    Key t = Some "Name" /\ Value t = Some v.
Proof.
  assert (Hkey : forall u, key_is_name u = true <-> Key u = Some "Name").
  { intro u. unfold key_is_name. destruct (Key u) as [k | ].
    - rewrite String.eqb_eq. split; congruence.
    - split; discriminate. }
  assert (Hnot : forall u, key_is_name u = false <-> Key u <> Some "Name").
  { intro u. rewrite <- Hkey. destruct (key_is_name u); split; congruence. }
  unfold _get_name_tag. split.
  - destruct answer as [r | ]; [ | discriminate].
    destruct (first_name_value _) as [[w | ] | ] eqn:Hf; try discriminate.
    intro H. injection H as ->.
    apply first_name_value_found in Hf
      as (pre & t & post & Hl & Hpre & Ht & Hw).
    destruct (TagList r) as [l | ] eqn:Hr; [ | destruct pre; discriminate Hl].
    exists r, pre, t, post. subst l.
    split; [reflexivity | ]. split; [exact Hr | ].
    repeat split; try assumption.
    + eapply Forall_impl; [ | exact Hpre]. intros u. apply Hnot.
    + apply Hkey. exact Ht.
  - intros (r & pre & t & post & -> & Hl & Hpre & Ht & Hv).
    rewrite Hl.
    assert (Hf : first_name_value (pre ++ t :: post) = Some (Some v)).
    { apply first_name_value_found. exists pre, t, post.
      repeat split; try assumption.
      - eapply Forall_impl; [ | exact Hpre]. intros u. apply Hnot.
      - apply Hkey. exact Ht. }
    rewrite Hf. reflexivity.
Qed.

(** ** What makes an iteration raise *)

Lemma float_of_int_raise (z : Z) (e : exn) :
  float_of_int z = Raise e -> e = OverflowError.
Proof.
  unfold float_of_int.
  destruct (is_infinity (SF2Prim (binary_normalize prec emax z 0 false)));
    intro H; [injection H as <-; reflexivity | discriminate H].
Qed.

Lemma free_pct_of_raises (o : observation) :
  match free_pct_of (free_store_b o) (AllocatedStorage (db o)) with
  | Ok _ => storage_overflows o = false
  | Raise e => storage_overflows o = true /\ e = OverflowError
  end.
Proof.
  unfold storage_overflows, free_pct_of.
  destruct (free_store_b o) as [b | ]; [ | reflexivity].
  destruct (AllocatedStorage (db o)) as [ | z | f];
    cbn [py_truthy py_float].
  - reflexivity.
  - unfold int_fits_float.
    destruct (z =? 0)%Z eqn:Ez; cbn [negb].
    + apply Z.eqb_eq in Ez. subst z. reflexivity.
    + destruct (float_of_int z) as [g | e] eqn:Eg; cbn.
      * reflexivity.
      * split; [reflexivity | exact (float_of_int_raise z e Eg)].
  - destruct (negb (f =? 0)%float); reflexivity.
Qed.

Lemma int_overflow_is_large (z : Z) :
  int_fits_float z = false -> (2 ^ 1023 <= Z.abs z)%Z.
Proof.
  intro H. destruct (Z.lt_ge_cases (Z.abs z) (2 ^ 1023)) as [Hlt | Hge];
    [ | exact Hge].
  rewrite (small_int_fits z Hlt) in H. discriminate H.
Qed.

(** X3. One iteration of the loop raises in exactly two situations, the
    first taking precedence: [OverflowError] when a free-space reading is
    known and the allocated storage is an int too large for a double (at
    least 2^1023 in magnitude), and otherwise [ValueError] when the
    connection count is NaN or [OverflowError] when it is infinite.  Missing
    readings, missing attributes and float storage sizes never raise. *)
Theorem assess_raises_exactly (t : thresholds) (reg : string)
  (o : observation) (e : exn) :
  assess t reg o = Raise e <->
  (storage_overflows o = true /\ e = OverflowError /\
   exists z : Z,
     AllocatedStorage (db o) = PyInt z /\ (2 ^ 1023 <= Z.abs z)%Z) \/
  (storage_overflows o = false /\
   exists c : float,
     conns o = Some c /\
     ((Prim2SF c = S754_nan /\ e = ValueError) \/
      ((exists s, Prim2SF c = S754_infinity s) /\ e = OverflowError))).
Proof.
  cbv beta zeta delta [assess].
  pose proof (free_pct_of_raises o) as Hfree.
  destruct (free_pct_of (free_store_b o) (AllocatedStorage (db o)))
    as [fp | e1]; cbv beta iota delta [bind].
  - rewrite Hfree.
    unfold conns_cell_of, int_of_float.
    destruct (conns o) as [c | ]; cbv beta iota delta [bind].
    + destruct (Prim2SF c) as [s | s | | s m x] eqn:Hc;
        cbv beta iota delta [bind]; split;
        try discriminate;
        try (intros [(H & _) | (_ & c' & Hc' & [(Hn & _) | ((s' & Hi) & _)])];
             [discriminate H | injection Hc' as <-; congruence
             | injection Hc' as <-; congruence]).
      * intro H. injection H as <-. right. split; [reflexivity | ].
        exists c. split; [reflexivity | ]. right.
        split; [exists s; exact Hc | reflexivity].
      * intros [(H & _) | (_ & c' & Hc' & [(Hn & _) | (_ & He)])];
          [discriminate H | injection Hc' as <-; congruence | ].
        subst e. reflexivity.
      * intro H. injection H as <-. right. split; [reflexivity | ].
        exists c. split; [reflexivity | ]. left. split; [exact Hc | reflexivity].
      * intros [(H & _) | (_ & c' & Hc' & [(_ & He) | ((s' & Hi) & _)])];
          [discriminate H | | injection Hc' as <-; congruence].
        subst e. reflexivity.
    + split; [discriminate | ].
      intros [(H & _) | (_ & c' & Hc' & _)]; discriminate.
  - destruct Hfree as [Hov ->]. rewrite Hov. split.
    + intro H. injection H as <-. left.
      split; [reflexivity | split; [reflexivity | ] ].
      unfold storage_overflows in Hov.
      destruct (free_store_b o) as [b | ]; [ | discriminate Hov].
      destruct (AllocatedStorage (db o)) as [ | z | f];
        try discriminate Hov.
      exists z. split; [reflexivity | ].
      apply int_overflow_is_large. apply negb_true_iff. exact Hov.
    + intros [(_ & -> & _) | (H & _)]; [reflexivity | discriminate H].
Qed.

(** ** How a run ends *)

Lemma loop_result (t : thresholds) (reg : string) (obs : list observation) :
  forall (rows : list row) (flags : list bool),
    match loop t reg obs rows flags with
    | Ok (rows', flags') =>
        exists asl : list assessment,
          Forall2 (fun o a => assess t reg o = Ok a) obs asl /\
          rows' = (rows ++ map the_row asl)%list /\
          flags' = (flags ++ map row_has_issue asl)%list
    | Raise e =>
        exists (pre : list observation) (o : observation)
               (post : list observation),
          obs = (pre ++ o :: post)%list /\
          Forall (fun p => exists a, assess t reg p = Ok a) pre /\
          assess t reg o = Raise e
    end.
Proof.
  induction obs as [ | o rest IH]; intros rows flags; cbn [loop].
  - exists []. split; [constructor | ]. cbn. rewrite !app_nil_r. split; reflexivity.
  - destruct (assess t reg o) as [a | e] eqn:Ha; cbv beta iota delta [bind].
    + specialize (IH (rows ++ [the_row a])%list
                    (flags ++ [row_has_issue a])%list).
      destruct (loop t reg rest _ _) as [[rows' flags'] | e].
      * destruct IH as (asl & Hasl & -> & ->).
        exists (a :: asl). split; [constructor; assumption | ].
        cbn. rewrite <- !app_assoc. split; reflexivity.
      * destruct IH as (pre & p & post & -> & Hpre & Hp).
        exists (o :: pre), p, post. split; [reflexivity | ].
        split; [ | exact Hp]. constructor; [exists a; exact Ha | exact Hpre].
    + exists [], o, rest. split; [reflexivity | ].
      split; [constructor | exact Ha].
Qed.

Lemma run_raise_is_loop_raise (cfg : config) (obs : list observation)
  (e : exn) :
  run cfg obs = Raise e <->
  loop (th cfg) (region cfg) obs [] [] = Raise e.
Proof.
  unfold run.
  destruct (loop (th cfg) (region cfg) obs [] []) as [[rows flags] | e'];
    cbv beta iota delta [bind].
  - split; [ | discriminate].
    destruct (negb (list_truthy rows)); [discriminate | ].
    destruct (negb (list_truthy (failing rows flags))); discriminate.
  - split; intro H; injection H as ->; reflexivity.
Qed.

(** X4. A run raises exactly when some instance's iteration raises, and the
    exception is that of the first such instance in listing order, every
    instance before it having been evaluated; since the card and the email
    are built only after the loop, nothing is posted or mailed in that case,
    whatever the other instances look like. *)
Theorem run_stops_at_first_failure (cfg : config) (obs : list observation)
  (e : exn) :
  run cfg obs = Raise e <->
  exists (pre : list observation) (o : observation) (post : list observation),
    obs = (pre ++ o :: post)%list /\
    Forall (fun p => exists a, assess (th cfg) (region cfg) p = Ok a) pre /\
    assess (th cfg) (region cfg) o = Raise e.
Proof.
  rewrite run_raise_is_loop_raise.
  pose proof (loop_result (th cfg) (region cfg) obs [] []) as H.
  split.
  - intro Hl. rewrite Hl in H. exact H.
  - intros (pre & o & post & -> & Hpre & Ho).
    destruct (loop (th cfg) (region cfg) (pre ++ o :: post) [] [])
      as [[rows flags] | e'].
    + exfalso. destruct H as (asl & Hasl & _).
      apply Forall2_app_inv_l in Hasl as (l1 & l2 & _ & Hl2 & _).
      inversion Hl2 as [ | o' a rest l2' Ha _]; subst. congruence.
    + destruct H as (pre' & o' & post' & Heq & Hpre' & Ho').
      assert (Hsame : forall (l1 l1' : list observation) x x' l2 l2',
                 (l1 ++ x :: l2 = l1' ++ x' :: l2')%list ->
                 Forall (fun p => exists a,
                           assess (th cfg) (region cfg) p = Ok a) l1 ->
                 Forall (fun p => exists a,
                           assess (th cfg) (region cfg) p = Ok a) l1' ->
                 (exists e1, assess (th cfg) (region cfg) x = Raise e1) ->
                 (exists e2, assess (th cfg) (region cfg) x' = Raise e2) ->
                 x = x').
      { induction l1 as [ | y l1 IH]; intros l1' x x' l2 l2' E F1 F2 R1 R2.
        - destruct l1' as [ | y' l1']; cbn in E; injection E as E1 E2.
          + exact E1.
          + subst y'. inversion F2 as [ | ? ? (a & Ha) _]; subst.
            destruct R1 as [e1 R1]. congruence.
        - destruct l1' as [ | y' l1']; cbn in E; injection E as E1 E2.
          + subst y. inversion F1 as [ | ? ? (a & Ha) _]; subst.
            destruct R2 as [e2 R2]. congruence.
          + inversion F1; inversion F2; subst.
            eapply IH; eassumption. }
      assert (o = o').
      { eapply Hsame; try eassumption; eexists; eassumption. }
      subst o'. congruence.
Qed.

Lemma filter_length_le {A : Type} (f : A -> bool) (l : list A) :
  (List.length (filter f l) <= List.length l)%nat.
Proof.
  induction l as [ | x l IH]; cbn; [lia | ].
  destruct (f x); cbn; lia.
Qed.

(** X5. Whatever a run returns, [ok] is true and [instances] is the number
    of listed instances.  Either nothing was sent, no call left the module
    and the reason is "no-instances" (empty listing) or "no-issues"
    (non-empty listing); or [sent] is true, [issues] counts between one and
    all of the instances, and the calls are at most one Teams post followed
    by exactly one hand-over to the mailer. *)
Theorem run_result_invariants (cfg : config) (obs : list observation)
  (r : run_result) (eff : list effect) :
  run cfg obs = Ok (r, eff) ->
  ok r = true /\ instances r = List.length obs /\
  ((sent r = false /\ eff = [] /\ issues r = None /\
    ((obs = [] /\ reason r = Some "no-instances") \/
     (obs <> [] /\ reason r = Some "no-issues"))) \/
   (sent r = true /\ reason r = None /\
    exists k : nat,
      issues r = Some k /\ (1 <= k <= List.length obs)%nat /\
      exists (post : list effect) (html txt : string),
        eff = (post ++ [SendEmailSES
                          (acct cfg ++ " - RDS Dashboard (Issues)")
                          html txt])%list /\
        (post = [] \/ exists url c, post = [PostToTeams url c]))).
Proof.
  unfold run.
  pose proof (loop_result (th cfg) (region cfg) obs [] []) as H.
  destruct (loop (th cfg) (region cfg) obs [] []) as [[rows flags] | e'];
    cbv beta iota delta [bind]; [ | discriminate].
  destruct H as (asl & Hasl & -> & ->). cbn [app].
  assert (Hlen : List.length asl = List.length obs).
  { symmetry. induction Hasl; cbn; congruence. }
  rewrite failing_assessments, !length_map, Hlen.
  destruct asl as [ | a asl'].
  - cbn. intro E. injection E as <- <-. inversion Hasl; subst.
    split; [reflexivity | ]. split; [reflexivity | ].
    left. repeat split. left. split; reflexivity.
  - assert (Hne : obs <> []) by (inversion Hasl; discriminate).
    cbn [map list_truthy negb].
    destruct (filter row_has_issue (a :: asl')) as [ | b bad] eqn:Hf;
      cbn [map list_truthy negb]; intro E; injection E as <- <-.
    + split; [reflexivity | ]. split; [reflexivity | ].
      left. repeat split. right. split; [exact Hne | reflexivity].
    + split; [reflexivity | ]. split; [reflexivity | ].
      right. split; [reflexivity | ]. split; [reflexivity | ].
      exists (List.length (b :: bad)). split; [reflexivity | ].
      split.
      * split; [cbn; lia | ].
        rewrite <- Hf, <- Hlen. apply filter_length_le.
      * destruct (dispatch_same_rows cfg
                    (acct cfg ++ " - RDS Dashboard (Issues)")
                    (the_row b :: map the_row bad))
          as (post & Hd & Hpost).
        eexists post, _, _. split; [exact Hd | ].
        destruct Hpost as [-> | (url & ->)];
          [left; reflexivity | right; eexists _, _; reflexivity].
Qed.

(** ** What the glyph of a cell says *)

Lemma red_prefix_level2 (b : bool) (label : string) :
  prefix "🔴" (_dot_by (level2 b) ++ String " " label) = b.
Proof. destruct b; reflexivity. Qed.

Lemma red_prefix_level3 (b w : bool) (label : string) :
  prefix "🔴" (_dot_by (level3 b w) ++ String " " label) = b.
Proof. destruct b, w; reflexivity. Qed.

(** X6. The status glyphs can be read back from a row: each of the seven
    status cells starts with the red glyph exactly when its alert flag is
    set, so an instance is reported exactly when at least one of these seven
    cells of its row starts with the red glyph; the pending-maintenance cell
    never starts with it. *)
Theorem failing_iff_red_cell (t : thresholds) (reg : string)
  (o : observation) (a : assessment) :
  assess t reg o = Ok a ->
  let r := the_row a in
  prefix "🔴" (public_cell r) = public_alert a /\
  prefix "🔴" (enc_cell r) = enc_disabled a /\
  prefix "🔴" (write_cell r) = write_alert a /\
  prefix "🔴" (read_cell r) = read_alert a /\
  prefix "🔴" (cpu_cell r) = cpu_alert a /\
  prefix "🔴" (free_cell r) = free_alert a /\
  prefix "🔴" (autoscale_cell r) = autoscale_disabled a /\
  prefix "🔴" (pending_cell r) = false /\
  (row_has_issue a = true <->
   prefix "🔴" (public_cell r) = true \/ prefix "🔴" (enc_cell r) = true \/
   prefix "🔴" (write_cell r) = true \/ prefix "🔴" (read_cell r) = true \/
   prefix "🔴" (cpu_cell r) = true \/ prefix "🔴" (free_cell r) = true \/
   prefix "🔴" (autoscale_cell r) = true).
Proof.
  intro H. assess_cases H.
  rewrite !red_prefix_level2, !red_prefix_level3.
  repeat (split; [reflexivity | ]).
  split; [destruct (pending_has_of (pending_resp o)); reflexivity | ].
  apply any7.
Qed.

(** ** The pending-maintenance cell *)

Lemma ascii_compare_lt_trans (a b c : ascii) :
  Ascii.compare a b = Lt -> Ascii.compare b c = Lt -> Ascii.compare a c = Lt.
Proof.
  unfold Ascii.compare. rewrite !N.compare_lt_iff. lia.
Qed.

Lemma ascii_compare_refl (a : ascii) : Ascii.compare a a = Eq.
Proof. unfold Ascii.compare. apply N.compare_refl. Qed.

Lemma string_ltb_trans (a : string) :
  forall b c, String.ltb a b = true -> String.ltb b c = true ->
              String.ltb a c = true.
Proof.
  unfold String.ltb.
  induction a as [ | x a IH]; intros [ | y b] [ | z c]; cbn;
    try discriminate; try reflexivity.
  destruct (Ascii.compare x y) eqn:Exy; try discriminate;
    destruct (Ascii.compare y z) eqn:Eyz; try discriminate.
  - apply Ascii.compare_eq_iff in Exy, Eyz. subst.
    rewrite ascii_compare_refl. apply IH.
  - apply Ascii.compare_eq_iff in Exy. subst. rewrite Eyz. reflexivity.
  - apply Ascii.compare_eq_iff in Eyz. subst. rewrite Exy. reflexivity.
  - rewrite (ascii_compare_lt_trans x y z Exy Eyz). reflexivity.
Qed.

Lemma string_ltb_irrefl (a : string) : String.ltb a a = false.
Proof.
  unfold String.ltb. induction a as [ | x a IH]; cbn; [reflexivity | ].
  rewrite ascii_compare_refl. exact IH.
Qed.

Lemma string_ltb_total (a b : string) :
  String.eqb a b = false -> String.ltb a b = false -> String.ltb b a = true.
Proof.
  unfold String.ltb. intros Hne Hlt.
  rewrite String.compare_antisym.
  destruct (String.compare a b) eqn:E; cbn; try reflexivity; try discriminate.
  apply String.compare_eq_iff in E. subst.
  rewrite String.eqb_refl in Hne. discriminate.
Qed.

Lemma set_add_in (nm : string) (names : list string) (x : string) :
  In x (set_add nm names) <-> x = nm \/ In x names.
Proof.
  induction names as [ | y names IH]; cbn.
  - split; intros [H | H]; auto.
  - destruct (String.eqb nm y) eqn:E.
    + apply String.eqb_eq in E. subst y. cbn. split; [auto | ].
      intros [-> | H]; [left; reflexivity | exact H].
    + destruct (String.ltb nm y); cbn; [ | rewrite IH]; split;
        intros H; repeat destruct H as [H | H]; auto.
Qed.

Lemma set_add_sorted (nm : string) (names : list string) :
  StronglySorted by_ltb names -> StronglySorted by_ltb (set_add nm names).
Proof.
  induction 1 as [ | y names Hs IH Hall]; cbn.
  - constructor; constructor.
  - destruct (String.eqb nm y) eqn:E; [constructor; assumption | ].
    destruct (String.ltb nm y) eqn:L.
    + constructor; [constructor; assumption | ].
      constructor; [exact L | ].
      eapply Forall_impl; [ | exact Hall].
      intros z Hz. exact (string_ltb_trans nm y z L Hz).
    + constructor; [exact IH | ].
      apply Forall_forall. intros z Hz. apply set_add_in in Hz.
      destruct Hz as [-> | Hz].
      * apply string_ltb_total; assumption.
      * rewrite Forall_forall in Hall. apply Hall. exact Hz.
Qed.

Lemma action_names_flat (acts : list pending_item) :
  action_names acts
  = fold_left add_detail (flat_map PendingMaintenanceActionDetails acts) [].
Proof.
  unfold action_names. generalize (@nil string) as acc.
  induction acts as [ | item acts IH]; intro acc; cbn; [reflexivity | ].
  rewrite fold_left_app. apply IH.
Qed.

Lemma add_details_spec (dets : list pending_detail) :
  forall acc : list string,
    StronglySorted by_ltb acc ->
    StronglySorted by_ltb (fold_left add_detail dets acc) /\
    (forall nm,
       In nm (fold_left add_detail dets acc) <->
       In nm acc \/
       (nm <> EmptyString /\
        exists det, In det dets /\ Action det = Some nm)).
Proof.
  induction dets as [ | det dets IH]; intros acc Hacc; cbn [fold_left].
  - split; [exact Hacc | ].
    intro nm. split; [auto | ].
    intros [H | (_ & det & [] & _)]. exact H.
  - assert (Hstep : StronglySorted by_ltb (add_detail acc det) /\
                    forall nm, In nm (add_detail acc det) <->
                               In nm acc \/
                               (nm <> EmptyString /\ Action det = Some nm)).
    { unfold add_detail, str_or.
      destruct (Action det) as [s | ]; cbn.
      - destruct s as [ | c s]; cbn.
        + split; [exact Hacc | ]. intro nm. split; [auto | ].
          intros [H | (Hne & E)]; [exact H | ].
          injection E as <-. contradiction Hne; reflexivity.
        + split; [apply set_add_sorted; exact Hacc | ].
          intro nm. rewrite set_add_in. split.
          * intros [-> | H]; [right; split; [discriminate | reflexivity]
                             | left; exact H].
          * intros [H | (_ & E)]; [right; exact H | ].
            injection E as <-. left; reflexivity.
      - split; [exact Hacc | ]. intro nm. split; [auto | ].
        intros [H | (_ & E)]; [exact H | discriminate E]. }
    destruct Hstep as [Hs Hin].
    destruct (IH (add_detail acc det) Hs) as [Hs' Hin'].
    split; [exact Hs' | ].
    intro nm. rewrite Hin', Hin. split.
    + intros [[H | (Hne & E)] | (Hne & d & Hd & E)].
      * left; exact H.
      * right. split; [exact Hne | ]. exists det. split; [left; reflexivity | exact E].
      * right. split; [exact Hne | ]. exists d. split; [right; exact Hd | exact E].
    + intros [H | (Hne & d & [<- | Hd] & E)].
      * left; left; exact H.
      * left; right. split; assumption.
      * right. split; [exact Hne | ]. exists d. split; assumption.
Qed.

Lemma pending_has_details (resp : option (list pending_item)) :
  pending_has_of resp = true <-> pending_details resp <> [].
Proof.
  unfold pending_has_of, pending_details.
  destruct resp as [acts | ]; [ | split; [discriminate | intro H; contradiction H; reflexivity] ].
  induction acts as [ | item acts IH]; cbn.
  - split; [discriminate | intro H; contradiction H; reflexivity].
  - destruct (PendingMaintenanceActionDetails item) as [ | d ds]; cbn.
    + exact IH.
    + split; [discriminate | reflexivity].
Qed.

Lemma concat_names_truthy (names : list string) :
  names <> [] -> ~ In EmptyString names ->
  str_truthy (String.concat ", " names) = true.
Proof.
  destruct names as [ | x rest]; [intro H; contradiction H; reflexivity | ].
  intros _ Hne.
  assert (Hx : x <> EmptyString) by (intro E; apply Hne; left; exact E).
  destruct x as [ | c x]; [contradiction Hx; reflexivity | ].
  destruct rest; reflexivity.
Qed.

(** X7. The pending-maintenance cell is green with the text "None"
    exactly when the answer lists no action detail (or the lookup failed);
    otherwise it is yellow and shows the distinct non-empty action names in
    strictly increasing order, joined by ", ", or "Yes" when none of the
    details carries a name. *)
Theorem pending_cell_contents (t : thresholds) (reg : string)
  (o : observation) (a : assessment) :
  assess t reg o = Ok a ->
  let details := pending_details (pending_resp o) in
  let names := pending_names (pending_resp o) in
  StronglySorted by_ltb names /\
  (forall nm,
     In nm names <->
     nm <> EmptyString /\ exists det, In det details /\ Action det = Some nm) /\
  (details = [] ->
   pending_has a = false /\ pending_cell (the_row a) = "🟢 None") /\
  (details <> [] ->
   pending_has a = true /\
   pending_cell (the_row a)
   = "🟡 " ++ match names with
              | [] => "Yes"
              | _ :: _ => String.concat ", " names
              end).
Proof.
  intro H. assess_cases H.
  assert (Hnames : StronglySorted by_ltb (pending_names (pending_resp o)) /\
                   forall nm,
                     In nm (pending_names (pending_resp o)) <->
                     nm <> EmptyString /\
                     exists det, In det (pending_details (pending_resp o)) /\
                                 Action det = Some nm).
  { unfold pending_names, pending_details.
    destruct (pending_resp o) as [acts | ].
    - rewrite action_names_flat.
      destruct (add_details_spec
                  (flat_map PendingMaintenanceActionDetails acts) []
                  (SSorted_nil _)) as [Hs Hin].
      split; [exact Hs | ].
      intro nm. rewrite Hin. split; [intros [[] | H]; exact H | auto].
    - split; [constructor | ].
      intro nm. split; [intros [] | intros (_ & det & [] & _)]. }
  destruct Hnames as [Hs Hin].
  split; [exact Hs | ]. split; [exact Hin | ].
  pose proof (pending_has_details (pending_resp o)) as Hhas.
  split.
  - intro Hd.
    assert (Hf : pending_has_of (pending_resp o) = false).
    { apply not_true_is_false. intro E. apply Hhas in E. contradiction. }
    unfold pending_txt_of. rewrite Hf.
    split; [reflexivity | ]. destruct (pending_resp o); reflexivity.
  - intro Hd. apply Hhas in Hd.
    unfold pending_txt_of. rewrite Hd. split; [reflexivity | ].
    destruct (pending_resp o) as [acts | ] eqn:Hr; [ | discriminate Hd].
    cbn [pending_names] in *.
    destruct (action_names acts) as [ | n ns] eqn:Hn; [reflexivity | ].
    rewrite concat_names_truthy; [reflexivity | discriminate | ].
    intro Hempty. apply Hin in Hempty. destruct Hempty as [Hne _].
    contradiction Hne; reflexivity.
Qed.

(** ** The inventory and a run without metrics *)

Lemma list_db_instances_flat (ps : list page) :
  _list_db_instances ps
  = flat_map (fun p => match DBInstances p with
                       | Some l => l
                       | None => []
                       end) ps.
Proof.
  unfold _list_db_instances.
  assert (H : forall acc,
             fold_left
               (fun out p =>
                  (out ++ match DBInstances p with
                          | Some l => l
                          | None => []
                          end)%list) ps acc
             = (acc ++ flat_map (fun p => match DBInstances p with
                                          | Some l => l
                                          | None => []
                                          end) ps)%list).
  { induction ps as [ | p ps IH]; intro acc; cbn.
    - rewrite app_nil_r. reflexivity.
    - rewrite IH, app_assoc. reflexivity. }
  apply (H []).
Qed.

Lemma assess_without_readings (t : thresholds) (reg : string)
  (o : observation) :
  wlat o = None -> rlat o = None -> cpu o = None ->
  free_store_b o = None -> conns o = None ->
  exists a : assessment,
    assess t reg o = Ok a /\ row_has_issue a = config_problem (db o).
Proof.
  intros Hw Hr Hc Hf Hn.
  cbv beta zeta delta [assess]. rewrite Hw, Hr, Hc, Hf, Hn.
  cbn [free_pct_of conns_cell_of bind]. eexists. split; [reflexivity | ].
  cbn [row_has_issue]. unfold config_problem, any. cbn.
  destruct (opt_bool (PubliclyAccessible (db o))),
    (opt_bool (StorageEncrypted (db o))),
    (autoscale_disabled_of (AllocatedStorage (db o))
       (MaxAllocatedStorage (db o))); reflexivity.
Qed.

Lemma assess_all_without_metrics (t : thresholds) (reg : string) (c : cloud)
  (inv : list db_instance) :
  (forall m i, metric_of c m i = None) ->
  exists asl : list assessment,
    Forall2 (fun o a => assess t reg o = Ok a) (map (observe c) inv) asl /\
    List.length (filter row_has_issue asl)
    = List.length (filter config_problem inv).
Proof.
  intro Hnone. induction inv as [ | d inv (asl & Hasl & Hlen)].
  - exists []. split; [constructor | reflexivity].
  - destruct (assess_without_readings t reg (observe c d)) as (a & Ha & Hflag);
      try (cbn; rewrite Hnone; reflexivity).
    exists (a :: asl). split; [constructor; assumption | ].
    cbn [filter]. rewrite Hflag. cbn [observe db].
    destruct (config_problem d); cbn; rewrite Hlen; reflexivity.
Qed.

(** X8. When no metric can be fetched, the run still returns, and it
    reports exactly on configuration: with the instances taken from the
    pages in listing order, the outcome is "no-instances" for an empty
    inventory, "no-issues" when no entry is public, unencrypted or without
    autoscaling headroom, and otherwise a sent report whose issue count is
    the number of such entries. *)
Theorem report_without_metrics (cfg : config) (c : cloud) :
  (forall m i, metric_of c m i = None) ->
  let inv := flat_map (fun p => match DBInstances p with
                                | Some l => l
                                | None => []
                                end) (pages c) in
  let n := List.length inv in
  let k := List.length (filter config_problem inv) in
  exists eff : list effect,
    run_cloud cfg c
    = Ok (match n, k with
          | O, _ => no_instances
          | S _, O => no_issues n
          | S _, S _ => report_sent n k
          end, eff) /\
    (k = O -> eff = []).
Proof.
  intro Hnone. cbn zeta. unfold run_cloud, run.
  rewrite list_db_instances_flat.
  set (inv := flat_map _ (pages c)).
  destruct (assess_all_without_metrics (th cfg) (region cfg) c inv Hnone)
    as (asl & Hasl & Hk).
  rewrite (loop_app _ _ _ asl [] [] Hasl). cbn [bind app].
  assert (Hlen : List.length asl = List.length inv).
  { apply Forall2_length in Hasl. rewrite length_map in Hasl.
    symmetry. exact Hasl. }
  rewrite failing_assessments, !length_map, Hlen, <- Hk.
  destruct asl as [ | a asl'].
  - cbn in Hlen. rewrite <- Hlen. cbn. exists []. split; reflexivity.
  - cbn [List.length] in Hlen. rewrite <- Hlen.
    cbn [map list_truthy negb].
    destruct (filter row_has_issue (a :: asl')) as [ | b bad];
      cbn [map list_truthy negb List.length].
    + exists []. split; reflexivity.
    + eexists. split; [reflexivity | discriminate].
Qed.

(** ** Cutoffs and readings, moved *)

Lemma SFleb_trans (x y z : spec_float) :
  SFleb x y = true -> SFleb y z = true -> SFleb x z = true.
Proof.
  unfold SFleb, SFcompare.
  destruct x as [sx | sx | | sx mx ex], y as [sy | sy | | sy my ey],
    z as [sz | sz | | sz mz ez];
    try discriminate; try reflexivity;
    try (destruct sx); try (destruct sy); try (destruct sz);
    try discriminate; try reflexivity;
    repeat match goal with
      | |- context [(?a ?= ?b)%Z] => destruct (Z.compare_spec a b)
      | |- context [PosDef.Pos.compare_cont Eq ?a ?b] =>
          change (PosDef.Pos.compare_cont Eq a b) with (Pos.compare a b);
          destruct (Pos.compare_spec a b)
      end; cbn; try discriminate; try reflexivity; try lia.
Qed.

Lemma float_leb_trans (x y z : float) :
  (x <=? y)%float = true -> (y <=? z)%float = true ->
  (x <=? z)%float = true.
Proof. rewrite !leb_spec. apply SFleb_trans. Qed.

Lemma at_least_cutoff_mono (v : option float) (c c' : float) :
  (c <=? c')%float = true -> at_least v c' = true -> at_least v c = true.
Proof.
  destruct v as [x | ]; cbn; [ | intros _ H; exact H].
  intros Hc Hx. exact (float_leb_trans c c' x Hc Hx).
Qed.

Lemma at_most_cutoff_mono (v : option float) (c c' : float) :
  (c' <=? c)%float = true -> at_most v c' = true -> at_most v c = true.
Proof.
  destruct v as [x | ]; cbn; [ | intros _ H; exact H].
  intros Hc Hx. exact (float_leb_trans x c' c Hx Hc).
Qed.

(** X9. Loosening the ALERT cutoffs never adds a failing instance: when
    the write-latency, read-latency and CPU ALERT cutoffs are raised (or
    kept) and the free-space ALERT cutoff is lowered (or kept), every alert
    flag that is set under the new cutoffs was set under the old ones, and so
    was the issue flag.  The WARN cutoffs play no part. *)
Theorem lenient_cutoffs_fail_less (t t' : thresholds) (reg : string)
  (o : observation) (a a' : assessment) :
  (WRITE_ALERT t <=? WRITE_ALERT t')%float = true ->
  (READ_ALERT t <=? READ_ALERT t')%float = true ->
  (CPU_ALERT t <=? CPU_ALERT t')%float = true ->
  (FREE_ALERT t' <=? FREE_ALERT t)%float = true ->
  assess t reg o = Ok a -> assess t' reg o = Ok a' ->
  (write_alert a' = true -> write_alert a = true) /\
  (read_alert a' = true -> read_alert a = true) /\
  (cpu_alert a' = true -> cpu_alert a = true) /\
  (free_alert a' = true -> free_alert a = true) /\
  public_alert a' = public_alert a /\
  enc_disabled a' = enc_disabled a /\
  autoscale_disabled a' = autoscale_disabled a /\
  (row_has_issue a' = true -> row_has_issue a = true).
Proof.
  intros Hw Hr Hc Hf H H'.
  assess_cases H. assess_cases H'.
  injection Hfree as <-.
  pose proof (at_least_cutoff_mono (to_ms (wlat o)) _ _ Hw) as Mw.
  pose proof (at_least_cutoff_mono (to_ms (rlat o)) _ _ Hr) as Mr.
  pose proof (at_least_cutoff_mono (cpu o) _ _ Hc) as Mc.
  pose proof (at_most_cutoff_mono fp0 _ _ Hf) as Mf.
  cbn [app] in *.
  repeat (split; [assumption || reflexivity | ]).
  intro E. apply any7 in E. apply any7.
  destruct E as [E | [E | [E | [E | [E | [E | E]]]]]]; auto 10.
Qed.

(** X10. For fixed cutoffs a worse reading cannot clear an ALERT: if a
    reading is ALERT, any reading of the same dimension that is at least as
    large (for write latency, read latency and CPU, in displayed units) or
    at most as large (for the free-space percentage) is ALERT too. *)
Theorem worse_reading_stays_alert (t : thresholds) (reg : string)
  (o o' : observation) (a a' : assessment) :
  assess t reg o = Ok a -> assess t reg o' = Ok a' ->
  (forall v v', write_ms a = Some v -> write_ms a' = Some v' ->
                (v <=? v')%float = true -> write_lvl a = "ALERT" ->
                write_lvl a' = "ALERT") /\
  (forall v v', read_ms a = Some v -> read_ms a' = Some v' ->
                (v <=? v')%float = true -> read_lvl a = "ALERT" ->
                read_lvl a' = "ALERT") /\
  (forall v v', cpu_pct a = Some v -> cpu_pct a' = Some v' ->
                (v <=? v')%float = true -> cpu_lvl a = "ALERT" ->
                cpu_lvl a' = "ALERT") /\
  (forall v v', free_pct a = Some v -> free_pct a' = Some v' ->
                (v' <=? v)%float = true -> free_lvl a = "ALERT" ->
                free_lvl a' = "ALERT").
Proof.
  intros H H'. assess_fields H. assess_fields H'.
  split; [ | split; [ | split ] ]; intros v v' Hv Hv' Hle;
    rewrite Hv, Hv', !level3_alert; cbn [at_least at_most]; intro Ha.
  - exact (float_leb_trans _ _ _ Ha Hle).
  - exact (float_leb_trans _ _ _ Ha Hle).
  - exact (float_leb_trans _ _ _ Ha Hle).
  - exact (float_leb_trans _ _ _ Hle Ha).
Qed.

(** ** Recipient lists *)

Lemma in_set_spec (x : string) (seen : list string) :
  in_set x seen = true <-> In x seen.
Proof.
  unfold in_set. rewrite existsb_exists. split.
  - intros (y & Hy & E). apply String.eqb_eq in E. subst y. exact Hy.
  - intro H. exists x. split; [exact H | apply String.eqb_refl].
Qed.

Lemma str_truthy_spec (s : string) : str_truthy s = true <-> s <> EmptyString.
Proof.
  destruct s; cbn; split; try discriminate; try reflexivity.
  intro H. contradiction H; reflexivity.
Qed.

Lemma keep_new_fold (parts : list string) :
  forall seen out : list string,
    (forall k, In k seen <-> In k (map str_lower out)) ->
    NoDup (map str_lower out) ->
    exists new : list string,
      snd (fold_left (keep_new) parts (seen, out))
      = (out ++ new)%list /\
      NoDup (map str_lower (out ++ new)) /\
      Subseq new (map strip parts) /\
      (forall e, In e new -> e <> EmptyString) /\
      (forall p, In p parts -> strip p <> EmptyString ->
                 In (str_lower (strip p)) (map str_lower (out ++ new))) /\
      (forall e, In e new ->
         ~ In (str_lower e) seen /\
         exists pre post : list string,
           map strip parts = (pre ++ e :: post)%list /\
           forall q, In q pre -> q <> EmptyString ->
                     str_lower q <> str_lower e).
Proof.
  induction parts as [ | p parts IH]; intros seen out Hseen Hnd.
  - exists []. cbn [fold_left snd map]. rewrite app_nil_r.
    split; [reflexivity | ]. split; [exact Hnd | ].
    split; [constructor | ]. split; [intros e [] | ].
    split; [intros p [] | intros e [] ].
  - cbn [fold_left]. unfold keep_new at 2.
    destruct (str_truthy (strip p)
              && negb (in_set (str_lower (strip p)) seen)) eqn:Hk.
    + apply andb_prop in Hk as [Ht Hn].
      apply str_truthy_spec in Ht.
      assert (Hnew : ~ In (str_lower (strip p)) seen).
      { intro Hin. apply in_set_spec in Hin. rewrite Hin in Hn.
        discriminate Hn. }
      destruct (IH (str_lower (strip p) :: seen) (out ++ [strip p])%list)
        as (new & Hsnd & Hnd' & Hsub & Hne & Hcov & Hfirst).
      * intro k. rewrite map_app, in_app_iff. cbn. rewrite Hseen. tauto.
      * rewrite map_app. cbn.
        apply NoDup_app; [exact Hnd | repeat constructor; intros [] | ].
        intros k Hk1 [<- | []]. apply Hnew. apply Hseen. exact Hk1.
      * exists (strip p :: new).
        rewrite <- app_assoc in Hsnd, Hnd', Hcov. cbn [app] in Hsnd, Hnd', Hcov.
        split; [exact Hsnd | ]. split; [exact Hnd' | ].
        split; [cbn; constructor; exact Hsub | ].
        split.
        { intros e [<- | He]; [exact Ht | exact (Hne e He)]. }
        split.
        { intros q [<- | Hq] Hqt.
          - rewrite map_app, in_app_iff. right. left. reflexivity.
          - exact (Hcov q Hq Hqt). }
        intros e [<- | He].
        { split; [exact Hnew | ].
          exists [], (map strip parts). split; [reflexivity | ].
          intros q []. }
        destruct (Hfirst e He) as (Hns & pre & post & Heq & Hpre).
        split; [intro Hin; apply Hns; right; exact Hin | ].
        exists (strip p :: pre), post. cbn. rewrite Heq.
        split; [reflexivity | ].
        intros q [<- | Hq] Hqt; [ | exact (Hpre q Hq Hqt)].
        intro E. apply Hns. left. exact E.
    + destruct (IH seen out Hseen Hnd)
        as (new & Hsnd & Hnd' & Hsub & Hne & Hcov & Hfirst).
      exists new.
      split; [exact Hsnd | ]. split; [exact Hnd' | ].
      split; [cbn; constructor; exact Hsub | ].
      split; [exact Hne | ].
      split.
      { intros q [<- | Hq] Hqt; [ | exact (Hcov q Hq Hqt)].
        apply str_truthy_spec in Hqt. rewrite Hqt in Hk. cbn in Hk.
        apply negb_false_iff, in_set_spec in Hk.
        rewrite map_app, in_app_iff. left. apply Hseen. exact Hk. }
      intros e He. destruct (Hfirst e He) as (Hns & pre & post & Heq & Hpre).
      split; [exact Hns | ].
      exists (strip p :: pre), post. cbn. rewrite Heq.
      split; [reflexivity | ].
      intros q [<- | Hq] Hqt; [ | exact (Hpre q Hq Hqt)].
      intro E. apply str_truthy_spec in Hqt. rewrite Hqt in Hk. cbn in Hk.
      apply negb_false_iff, in_set_spec in Hk. apply Hns.
      rewrite E in Hk. exact Hk.
Qed.

(** X11. [_parse_emails] returns the stripped pieces of the split, in
    their original order, with the empty ones left out and one entry per
    lower-cased spelling: no two entries agree after [lower()], every
    non-empty piece is represented by an entry with the same lower-cased
    spelling, and the entry kept is the first piece with that spelling. *)
Theorem parse_emails_first_spellings (value : option string) :
  let parts := map strip (re_split (str_or value EmptyString)) in
  let out := _parse_emails value in
  NoDup (map str_lower out) /\
  Subseq out parts /\
  (forall e, In e out -> e <> EmptyString) /\
  (forall p, In p parts -> p <> EmptyString ->
             exists e, In e out /\ str_lower e = str_lower p) /\
  (forall e, In e out ->
     exists pre post : list string,
       parts = (pre ++ e :: post)%list /\
       forall q, In q pre -> q <> EmptyString ->
                 str_lower q <> str_lower e).
Proof.
  cbn zeta. unfold _parse_emails.
  destruct (keep_new_fold (re_split (str_or value EmptyString)) [] [])
    as (new & Hsnd & Hnd & Hsub & Hne & Hcov & Hfirst).
  - intro k. cbn. tauto.
  - constructor.
  - cbn [app] in Hsnd, Hnd, Hcov. rewrite Hsnd.
    split; [exact Hnd | ]. split; [exact Hsub | ]. split; [exact Hne | ].
    split.
    + intros p Hp Hpt. apply in_map_iff in Hp as (q & <- & Hq).
      specialize (Hcov q Hq Hpt). apply in_map_iff in Hcov as (e & E & He).
      exists e. split; [exact He | exact E].
    + intros e He. destruct (Hfirst e He) as (_ & pre & post & Heq & Hpre).
      exists pre, post. split; [exact Heq | exact Hpre].
Qed.

(** ** Pieces of the split *)

Lemma space_len_app (x y : string) :
  space_len x <> O -> space_len (x ++ y) = space_len x.
Proof.
  destruct x as [ | c1 [ | c2 [ | c3 r]]]; cbn [space_len append].
  - intro H. contradiction H; reflexivity.
  - destruct (ascii_space (nat_of_ascii c1)); [reflexivity | ].
    intro H. contradiction H; reflexivity.
  - destruct (ascii_space (nat_of_ascii c1)); [reflexivity | ].
    destruct ((nat_of_ascii c1 =? 194)%nat
              && ((nat_of_ascii c2 =? 133)%nat
                  || (nat_of_ascii c2 =? 160)%nat)); [reflexivity | ].
    intro H. contradiction H; reflexivity.
  - reflexivity.
Qed.

Lemma cons_space_len (c : ascii) (h rest : string) :
  space_len (String c (h ++ rest)) = O -> space_len (String c h) = O.
Proof.
  intro H. destruct (space_len (String c h)) as [ | k] eqn:E; [reflexivity | ].
  change (String c (h ++ rest)) with (String c h ++ rest) in H.
  rewrite space_len_app in H by (rewrite E; discriminate).
  rewrite E in H. discriminate H.
Qed.

Lemma split_tokens_pieces (s : string) :
  forall (in_run : bool) (skip : nat),
    Forall clean (split_tokens in_run (tokens skip s)) /\
    (in_run = false -> skip = O ->
     exists (h : string) (tl : list string) (rest : string),
       split_tokens in_run (tokens skip s) = h :: tl /\ s = h ++ rest).
Proof.
  assert (Hempty : clean EmptyString) by (split; [reflexivity | constructor]).
  induction s as [ | c s IH]; intros in_run skip.
  - cbn. split; [constructor; [exact Hempty | constructor] | ].
    intros _ _. exists EmptyString, [], EmptyString. split; reflexivity.
  - cbn [tokens]. destruct skip as [ | k].
    + destruct (space_len (String c s)) as [ | k] eqn:Hlen.
      * cbn [split_tokens is_sep].
        destruct (Ascii.eqb c "," || Ascii.eqb c ";") eqn:Hsep.
        -- destruct (IH true O) as [Hall _].
           destruct in_run.
           ++ split; [exact Hall | discriminate].
           ++ split; [constructor; assumption | ].
              intros _ _. eexists EmptyString, _, _. split; reflexivity.
        -- destruct (IH false O) as [Hall Hhead].
           destruct (Hhead eq_refl eq_refl) as (h & tl & rest & Heq & Hs).
           rewrite Heq in Hall |- *. cbn [cons_head].
           inversion Hall as [ | ? ? [Hh1 Hh2] Htl]; subst.
           split.
           ++ constructor; [ | exact Htl].
              split.
              ** cbn [tokens list_ascii_of_string map].
                 rewrite (cons_space_len c h rest Hlen), Hh1. reflexivity.
              ** cbn. constructor; [exact Hsep | exact Hh2].
           ++ intros _ _. exists (String c h), tl, rest.
              split; reflexivity.
      * cbn [split_tokens is_sep].
        destruct (IH true k) as [Hall _].
        destruct in_run.
        -- split; [exact Hall | discriminate].
        -- split; [constructor; assumption | ].
           intros _ _. eexists EmptyString, _, _. split; reflexivity.
    + destruct (IH in_run k) as [Hall _].
      split; [exact Hall | discriminate].
Qed.

Lemma drop_spaces_chars (l : list ascii) :
  drop_spaces (map Ch l) = map Ch l.
Proof. destruct l; reflexivity. Qed.

Lemma concat_byte (c : ascii) (l : list string) :
  String.concat EmptyString (String c EmptyString :: l)
  = String c (String.concat EmptyString l).
Proof. destruct l; reflexivity. Qed.

Lemma untokens_chars (l : list ascii) :
  untokens (map Ch l) = string_of_list_ascii l.
Proof.
  unfold untokens. induction l as [ | c l IH]; [reflexivity | ].
  cbn [map token_bytes string_of_list_ascii].
  rewrite concat_byte, IH. reflexivity.
Qed.

Lemma strip_clean (p : string) : clean p -> strip p = p.
Proof.
  intros [Ht _]. unfold strip. rewrite Ht, drop_spaces_chars.
  rewrite <- map_rev, drop_spaces_chars, map_rev, rev_involutive.
  rewrite untokens_chars. apply string_of_list_ascii_of_string.
Qed.

(** X12. No piece of the split contains a whitespace character, a comma
    or a semicolon, so the [strip()] in the loop changes nothing, and every
    address [_parse_emails] returns is a non-empty piece of the split, free
    of whitespace, commas and semicolons. *)
Theorem parsed_addresses_are_clean (value : option string) :
  let parts := re_split (str_or value EmptyString) in
  Forall clean parts /\
  map strip parts = parts /\
  forall e, In e (_parse_emails value) ->
            In e parts /\ clean e /\ e <> EmptyString.
Proof.
  cbn zeta.
  set (parts := re_split (str_or value EmptyString)).
  assert (Hclean : Forall clean parts).
  { apply (split_tokens_pieces (str_or value EmptyString) false O). }
  assert (Hstrip : map strip parts = parts).
  { clear -Hclean. induction Hclean as [ | p l Hp _ IH]; cbn;
      [reflexivity | ]. rewrite (strip_clean p Hp), IH. reflexivity. }
  split; [exact Hclean | ]. split; [exact Hstrip | ].
  intros e He.
  destruct (keep_new_fold parts [] []) as
    (new & Hsnd & _ & _ & Hne & _ & Hfirst).
  - intro k. cbn. tauto.
  - constructor.
  - unfold _parse_emails in He. fold parts in He.
    cbn [app] in Hsnd. rewrite Hsnd in He.
    destruct (Hfirst e He) as (_ & pre & post & Heq & _).
    rewrite Hstrip in Heq.
    assert (Hin : In e parts).
    { rewrite Heq. apply in_or_app. right. left. reflexivity. }
    split; [exact Hin | ].
    split; [ | exact (Hne e He)].
    rewrite Forall_forall in Hclean. exact (Hclean e Hin).
Qed.

(** ** The SES call *)

Lemma parse_emails_distinct (value : option string) :
  NoDup (map str_lower (_parse_emails value)) /\
  forall e, In e (_parse_emails value) -> e <> EmptyString.
Proof.
  unfold _parse_emails.
  destruct (keep_new_fold
              (re_split (str_or value EmptyString)) [] [])
    as (new & Hsnd & Hnd & _ & Hne & _).
  - intro k. cbn. tauto.
  - constructor.
  - cbn [app] in Hsnd, Hnd. rewrite Hsnd. split; assumption.
Qed.

Lemma list_truthy_spec {A : Type} (l : list A) :
  list_truthy l = true <-> l <> [].
Proof.
  destruct l; cbn; split; try discriminate; try reflexivity.
  intro H. contradiction H; reflexivity.
Qed.

(** X13. [_send_email_ses] returns without calling SES exactly when the
    mail report is switched off, the stripped sender is empty or no
    recipient is left after parsing.  A message that is sent carries the
    subject and both bodies unchanged, a non-empty sender, a non-empty To
    list, and Cc and Bcc keys only for non-empty lists; within each of the
    three lists no two addresses agree after [lower()] and none is empty. *)
Theorem ses_call_contents (subject html text : string)
  (env : list (string * string)) :
  let sent_list (l : list string) :=
    l <> [] /\ NoDup (map str_lower l) /\
    forall e, In e l -> e <> EmptyString in
  (_send_email_ses subject html text env = None <->
   mail_enabled env = false \/
   strip (env_get env "MAIL_FROM" EmptyString) = EmptyString \/
   _parse_emails (Some (env_get env "MAIL_TO" EmptyString)) = []) /\
  forall m : ses_message,
    _send_email_ses subject html text env = Some m ->
    Subject m = subject /\ Html m = html /\ Text m = text /\
    Source m = strip (env_get env "MAIL_FROM" EmptyString) /\
    Source m <> EmptyString /\
    sent_list (ToAddresses m) /\
    (forall l, CcAddresses m = Some l -> sent_list l) /\
    (forall l, BccAddresses m = Some l -> sent_list l) /\
    (CcAddresses m = None <->
     _parse_emails (Some (env_get env "MAIL_CC" EmptyString)) = []) /\
    (BccAddresses m = None <->
     _parse_emails (Some (env_get env "MAIL_BCC" EmptyString)) = []).
Proof.
  cbn zeta. unfold _send_email_ses.
  set (frm := strip (env_get env "MAIL_FROM" EmptyString)).
  set (tos := _parse_emails
                (Some (env_get env "MAIL_TO" EmptyString))).
  set (ccs := _parse_emails
                (Some (env_get env "MAIL_CC" EmptyString))).
  set (bccs := _parse_emails
                 (Some (env_get env "MAIL_BCC" EmptyString))).
  destruct (parse_emails_distinct
              (Some (env_get env "MAIL_TO" EmptyString))) as [Hto1 Hto2].
  destruct (parse_emails_distinct
              (Some (env_get env "MAIL_CC" EmptyString))) as [Hcc1 Hcc2].
  destruct (parse_emails_distinct
              (Some (env_get env "MAIL_BCC" EmptyString))) as [Hbc1 Hbc2].
  fold tos in Hto1, Hto2. fold ccs in Hcc1, Hcc2. fold bccs in Hbc1, Hbc2.
  destruct (mail_enabled env); cbn [negb].
  2:{ split; [ | discriminate]. split; [left; reflexivity | reflexivity]. }
  destruct (str_truthy frm) eqn:Hf; cbn [negb orb].
  2:{ split; [ | discriminate]. split; [ | reflexivity].
      intros _. right. left. destruct frm; [reflexivity | discriminate Hf]. }
  apply str_truthy_spec in Hf.
  destruct (list_truthy tos) eqn:Ht; cbn [negb].
  2:{ split; [ | discriminate]. split; [ | reflexivity].
      intros _. right. right. destruct tos; [reflexivity | discriminate Ht]. }
  apply list_truthy_spec in Ht.
  split.
  - split; [discriminate | ].
    intros [H | [H | H]]; [discriminate H | contradiction | contradiction].
  - intros m E. injection E as <-. cbn.
    do 3 (split; [reflexivity | ]).
    split; [reflexivity | ]. split; [exact Hf | ].
    split; [repeat split; assumption | ].
    split.
    { destruct (list_truthy ccs) eqn:Hc; [ | discriminate].
      intros l E. injection E as <-. apply list_truthy_spec in Hc.
      repeat split; assumption. }
    split.
    { destruct (list_truthy bccs) eqn:Hb; [ | discriminate].
      intros l E. injection E as <-. apply list_truthy_spec in Hb.
      repeat split; assumption. }
    split.
    + destruct ccs; cbn; split; try discriminate; reflexivity.
    + destruct bccs; cbn; split; try discriminate; reflexivity.
Qed.

(** ** The entry point *)

Lemma run_calls (cfg : config) (obs : list observation) (r : run_result)
  (eff : list effect) :
  run cfg obs = Ok (r, eff) ->
  (sent r = false /\ eff = []) \/
  (sent r = true /\
   exists failing_rows : list row,
     eff = dispatch cfg (acct cfg ++ " - RDS Dashboard (Issues)")
             failing_rows).
Proof.
  unfold run.
  destruct (loop (th cfg) (region cfg) obs [] []) as [[rows flags] | e'];
    cbv beta iota delta [bind]; [ | discriminate].
  destruct (negb (list_truthy rows)).
  - intro E. injection E as <- <-. left. split; reflexivity.
  - destruct (negb (list_truthy (failing rows flags)));
      intro E; injection E as <- <-.
    + left. split; reflexivity.
    + right. split; [reflexivity | ]. eexists. reflexivity.
Qed.

(** X14. [lambda_handler] raises [KeyError] exactly when [TEAMS_WEBHOOK] is
    not set, even with the module switched off.  When it returns, [ok] is
    true and the variable is set; with the module off nothing is run and no
    call leaves the process.  Otherwise a card is posted exactly when the
    run reports [sent] and the variable is non-empty, always to that URL
    (the fall-back to the process environment inside [run] can never pick
    another one); an email leaves only with the mail report switched on,
    and at most two calls are made. *)
Theorem handler_outcomes (environ : list (string * string))
  (acct_title : string) (t : thresholds) (cloud_in : string -> cloud) :
  let outcome := lambda_handler environ acct_title t cloud_in in
  (outcome = HRaise (KeyError "TEAMS_WEBHOOK") <->
   env_lookup environ "TEAMS_WEBHOOK" = None) /\
  forall (r : handler_result) (out : list outward),
    outcome = HOk (r, out) ->
    h_ok r = true /\
    exists hook : string,
      env_lookup environ "TEAMS_WEBHOOK" = Some hook /\
      (modules r = None <-> module_enabled environ = false) /\
      (modules r = None -> out = []) /\
      ((exists url c, In (TeamsPost url c) out) <->
       hook <> EmptyString /\
       exists rr, modules r = Some rr /\ sent rr = true) /\
      (forall url c, In (TeamsPost url c) out -> url = hook) /\
      (forall m, In (SesSend m) out ->
         mail_enabled environ = true /\
         exists rr, modules r = Some rr /\ sent rr = true) /\
      (List.length out <= 2)%nat.
Proof.
  cbn zeta. unfold lambda_handler.
  destruct (env_lookup environ "TEAMS_WEBHOOK") as [hook | ] eqn:Hhook.
  2:{ split; [split; reflexivity | discriminate]. }
  assert (Hget : env_get environ "TEAMS_WEBHOOK" EmptyString = hook).
  { unfold env_get. rewrite Hhook. reflexivity. }
  rewrite Hget.
  destruct (module_enabled environ).
  2:{ split; [split; discriminate | ].
      intros r out E. injection E as <- <-. cbn.
      split; [reflexivity | ]. exists hook. split; [reflexivity | ].
      split; [split; reflexivity | ]. split; [reflexivity | ].
      split.
      { split; [intros (? & ? & []) | intros (_ & rr & E & _); discriminate E]. }
      split; [intros ? ? [] | ]. split; [intros ? [] | lia]. }
  set (cfg := {| acct := acct_title; webhook := hook;
                 region := env_get environ "AWS_REGION" "us-east-1";
                 th := t; environ_webhook := hook |}).
  destruct (run_cloud cfg _) as [[rr eff] | e] eqn:Hrun.
  2:{ split; [split; discriminate | discriminate]. }
  split; [split; discriminate | ].
  intros r out E. injection E as <- <-. cbn [h_ok modules].
  split; [reflexivity | ]. exists hook. split; [reflexivity | ].
  split; [split; discriminate | ]. split; [discriminate | ].
  apply run_calls in Hrun.
  destruct Hrun as [[Hs ->] | [Hs (rows & ->)]].
  - cbn. split.
    { split; [intros (? & ? & []) | ].
      intros (_ & rr' & E & Hs'). injection E as <-. congruence. }
    split; [intros ? ? [] | ]. split; [intros ? [] | lia].
  - unfold dispatch. cbn [webhook environ_webhook cfg].
    destruct (_build_email_html _ rows) as [html txt].
    replace (if str_truthy hook then hook else hook) with hook
      by (destruct (str_truthy hook); reflexivity).
    destruct (str_truthy hook) eqn:Hh; cbn [app flat_map outward_of];
      destruct (_send_email_ses _ html txt environ) as [m | ] eqn:Hm;
      cbn [app List.length In].
    all: assert (Hon : forall m', _send_email_ses
                         (acct cfg ++ " - RDS Dashboard (Issues)")
                         html txt environ = Some m' ->
                       mail_enabled environ = true)
      by (intros m' Em; unfold _send_email_ses in Em;
          destruct (mail_enabled environ);
          [reflexivity | discriminate Em]).
    all: assert (Hrr : exists rr', Some rr = Some rr' /\ sent rr' = true)
      by (exists rr; split; [reflexivity | exact Hs]).
    + apply str_truthy_spec in Hh.
      split; [split; [intros _; split; assumption | ] | ].
      { intros _. eexists _, _. left. reflexivity. }
      split.
      { intros url c [Hin | [Hin | []]]; [ | discriminate Hin].
        injection Hin as <- _. reflexivity. }
      split; [ | lia].
      intros m' [Hin | [Hin | []]]; [discriminate Hin | ].
      injection Hin as <-. split; [exact (Hon m Hm) | exact Hrr].
    + apply str_truthy_spec in Hh.
      split; [split; [intros _; split; assumption | ] | ].
      { intros _. eexists _, _. left. reflexivity. }
      split.
      { intros url c [Hin | []]. injection Hin as <- _. reflexivity. }
      split; [ | lia].
      intros m' [Hin | []]. discriminate Hin.
    + assert (Hempty : hook = EmptyString)
        by (destruct hook; [reflexivity | discriminate Hh]).
      split.
      { split.
        - intros (url & c & [Hin | []]). discriminate Hin.
        - intros (Hne & _). contradiction. }
      split.
      { intros url c [Hin | []]. discriminate Hin. }
      split; [ | lia].
      intros m' [Hin | []]. injection Hin as <-.
      split; [exact (Hon m Hm) | exact Hrr].
    + assert (Hempty : hook = EmptyString)
        by (destruct hook; [reflexivity | discriminate Hh]).
      split.
      { split.
        - intros (url & c & []).
        - intros (Hne & _). contradiction. }
      split; [intros url c [] | ].
      split; [intros m' [] | lia].
Qed.

(** ** Parsing a list that was written back *)

Lemma clean_head (c : ascii) (h : string) :
  clean (String c h) ->
  space_len (String c h) = O /\ is_sep (Ch c) = false /\ clean h.
Proof.
  intros [Ht Hs]. cbn [tokens list_ascii_of_string map] in Ht.
  destruct (space_len (String c h)) as [ | k] eqn:E; [ | discriminate Ht].
  injection Ht as Ht. cbn [list_ascii_of_string] in Hs.
  inversion Hs as [ | ? ? Hc Hrest]; subst.
  split; [reflexivity | ]. split; [exact Hc | ]. split; assumption.
Qed.

Lemma space_len_before_comma (c : ascii) (h t : string) :
  space_len (String c h) = O ->
  space_len (String c (h ++ String "," t)) = O.
Proof.
  destruct h as [ | c2 [ | c3 h']]; cbn [append space_len].
  - destruct (ascii_space (nat_of_ascii c)); [discriminate | ]. intros _.
    change (nat_of_ascii ",") with 44%nat. cbn [Nat.eqb orb].
    rewrite andb_false_r.
    destruct t as [ | c3 t']; [reflexivity | ].
    cbn [Nat.eqb]. rewrite !andb_false_r, !andb_false_l. reflexivity.
  - destruct (ascii_space (nat_of_ascii c)); [discriminate | ].
    destruct ((nat_of_ascii c =? 194)%nat
              && ((nat_of_ascii c2 =? 133)%nat
                  || (nat_of_ascii c2 =? 160)%nat)); [discriminate | ].
    intros _. change (nat_of_ascii ",") with 44%nat.
    cbn [Nat.eqb Nat.leb orb andb].
    rewrite !andb_false_r. reflexivity.
  - intro H. exact H.
Qed.

Lemma tokens_clean_then_comma (e t : string) :
  clean e ->
  tokens 0 (e ++ String "," t)
  = (map Ch (list_ascii_of_string e) ++ tokens 0 (String "," t))%list.
Proof.
  induction e as [ | c h IH]; intro Hc; [reflexivity | ].
  destruct (clean_head c h Hc) as (Hlen & _ & Hh).
  change (String c h ++ String "," t) with (String c (h ++ String "," t)).
  cbn [tokens list_ascii_of_string map app].
  rewrite (space_len_before_comma c h t Hlen), (IH Hh). reflexivity.
Qed.

Lemma tokens_comma_space (t : string) :
  tokens 0 (String "," (String " " t))
  = Ch "," :: Sp " " :: tokens 0 t.
Proof. destruct t; reflexivity. Qed.

Lemma split_tokens_chars (l : list ascii) (ts : list token) (p : string)
  (ps : list string) :
  Forall (fun c => is_sep (Ch c) = false) l ->
  split_tokens false ts = p :: ps ->
  split_tokens false (map Ch l ++ ts) = (string_of_list_ascii l ++ p) :: ps.
Proof.
  intros Hl Hts.
  induction Hl as [ | c l Hc _ IH]; cbn [map app string_of_list_ascii].
  - exact Hts.
  - cbn [split_tokens]. rewrite Hc, IH. reflexivity.
Qed.

Lemma split_tokens_after_run (c : ascii) (ts : list token) :
  is_sep (Ch c) = false ->
  split_tokens true (Ch c :: ts) = split_tokens false (Ch c :: ts).
Proof. intro H. cbn [split_tokens]. rewrite H. reflexivity. Qed.

Lemma re_split_joined (e : string) (l : list string) :
  Forall (fun x => clean x /\ x <> EmptyString) (e :: l) ->
  re_split (String.concat ", " (e :: l)) = e :: l.
Proof.
  unfold re_split. revert e.
  induction l as [ | e' l IH]; intros e Hall;
    inversion Hall as [ | ? ? [Hc Hne] Hrest]; subst.
  - cbn [String.concat].
    destruct Hc as [Ht Hs]. rewrite Ht.
    rewrite <- (app_nil_r (map Ch (list_ascii_of_string e))).
    rewrite (split_tokens_chars _ [] EmptyString [] Hs eq_refl).
    rewrite string_of_list_ascii_of_string.
    rewrite append_empty. reflexivity.
  - change (String.concat ", " (e :: e' :: l))
      with (e ++ String "," (String " " (String.concat ", " (e' :: l)))).
    rewrite (tokens_clean_then_comma e _ Hc), tokens_comma_space.
    specialize (IH e' Hrest).
    assert (Htl : split_tokens false
                    (Ch "," :: Sp " "
                     :: tokens 0 (String.concat ", " (e' :: l)))
                  = EmptyString :: e' :: l).
    { cbn [split_tokens is_sep Ascii.eqb orb]. cbn.
      f_equal.
      inversion Hrest as [ | ? ? [Hc' Hne'] _]; subst.
      destruct e' as [ | c h]; [contradiction Hne'; reflexivity | ].
      destruct (clean_head c h Hc') as (Hlen & Hsep & _).
      revert IH.
      destruct l as [ | e'' l'].
      - cbn [String.concat tokens]. rewrite Hlen.
        rewrite (split_tokens_after_run c _ Hsep). intro IH; exact IH.
      - change (String.concat ", " (String c h :: e'' :: l'))
          with (String c (h ++ String ","
                  (String " " (String.concat ", " (e'' :: l'))))).
        cbn [append tokens]. rewrite (space_len_before_comma c h _ Hlen).
        rewrite (split_tokens_after_run c _ Hsep). intro IH; exact IH. }
    destruct Hc as [_ Hs].
    rewrite (split_tokens_chars _ _ _ _ Hs Htl).
    rewrite string_of_list_ascii_of_string, append_empty. reflexivity.
Qed.

Lemma parse_emails_pieces (value : option string) :
  Forall (fun x => clean x /\ x <> EmptyString)
    (_parse_emails value) /\
  NoDup (map str_lower (_parse_emails value)).
Proof.
  set (parts := re_split (str_or value EmptyString)).
  assert (Hclean : Forall clean parts).
  { apply (split_tokens_pieces (str_or value EmptyString) false O). }
  assert (Hstrip : map strip parts = parts).
  { clear -Hclean. induction Hclean as [ | p l Hp _ IH]; cbn;
      [reflexivity | ]. rewrite (strip_clean p Hp), IH. reflexivity. }
  destruct (keep_new_fold parts [] []) as
    (new & Hsnd & Hnd & _ & Hne & _ & Hfirst).
  - intro k. cbn. tauto.
  - constructor.
  - unfold _parse_emails. fold parts. cbn [app] in Hsnd, Hnd.
    rewrite Hsnd. split; [ | exact Hnd].
    apply Forall_forall. intros e He.
    split; [ | exact (Hne e He)].
    destruct (Hfirst e He) as (_ & pre & post & Heq & _).
    rewrite Hstrip in Heq. rewrite Forall_forall in Hclean.
    apply Hclean. rewrite Heq. apply in_or_app. right. left. reflexivity.
Qed.

Lemma keep_new_all (l : list string) :
  forall seen out : list string,
    (forall e, In e l ->
       strip e = e /\ e <> EmptyString /\ ~ In (str_lower e) seen) ->
    NoDup (map str_lower l) ->
    snd (fold_left (keep_new) l (seen, out)) = (out ++ l)%list.
Proof.
  induction l as [ | p l IH]; intros seen out Hl Hnd.
  - cbn. symmetry. apply app_nil_r.
  - cbn [fold_left]. unfold keep_new at 2.
    destruct (Hl p (or_introl eq_refl)) as (Hs & Hne & Hnew).
    rewrite Hs.
    apply str_truthy_spec in Hne. rewrite Hne.
    destruct (in_set (str_lower p) seen) eqn:Hin.
    { apply in_set_spec in Hin. contradiction. }
    cbn [negb andb].
    inversion Hnd as [ | ? ? Hp Hnd']; subst.
    rewrite IH; [rewrite <- app_assoc; reflexivity | | exact Hnd'].
    intros e He. destruct (Hl e (or_intror He)) as (Hs' & Hne' & Hnew').
    split; [exact Hs' | ]. split; [exact Hne' | ].
    intros [E | Hin']; [ | exact (Hnew' Hin')].
    apply Hp. rewrite E. apply in_map. exact He.
Qed.

(** X16. A recipient list written back as text parses to itself: joining
    the addresses [_parse_emails] returns with ", " and parsing the result
    gives the same list, in the same order; nothing is split further,
    stripped or dropped a second time. *)
Theorem parse_emails_round_trip (value : option string) :
  _parse_emails
    (Some (String.concat ", " (_parse_emails value)))
  = _parse_emails value.
Proof.
  destruct (parse_emails_pieces value) as [Hall Hnd].
  destruct (_parse_emails value) as [ | e l] eqn:Hout.
  - reflexivity.
  - unfold _parse_emails at 1.
    replace (str_or (Some (String.concat ", " (e :: l))) EmptyString)
      with (String.concat ", " (e :: l)).
    2:{ unfold str_or.
        destruct (str_truthy (String.concat ", " (e :: l))) eqn:Ht;
          [reflexivity | ].
        destruct (String.concat ", " (e :: l)); [reflexivity | discriminate Ht]. }
    rewrite (re_split_joined e l Hall).
    apply (keep_new_all (e :: l) [] []); [ | exact Hnd].
    intros x Hx. rewrite Forall_forall in Hall.
    destruct (Hall x Hx) as [Hc Hne].
    split; [exact (strip_clean x Hc) | ]. split; [exact Hne | intros []].
Qed.

(** ** Cells of unknown readings *)

Lemma has_byte_app (c : ascii) (x y : string) :
  has_byte c (x ++ y) = has_byte c x || has_byte c y.
Proof.
  induction x as [ | b x IH]; cbn; [reflexivity | ].
  rewrite IH. apply orb_assoc.
Qed.

Lemma digits_without_letter (d : Decimal.uint) :
  has_byte "A" (NilEmpty.string_of_uint d) = false.
Proof. induction d; cbn; assumption || reflexivity. Qed.

Lemma dec_without_letter (z : Z) : has_byte "A" (dec_of_Z z) = false.
Proof.
  unfold dec_of_Z, NilZero.string_of_int, NilZero.string_of_uint.
  destruct (Z.to_int z) as [d | d]; destruct d; cbn;
    reflexivity || apply digits_without_letter.
Qed.

Lemma format_without_letter (f : float) : has_byte "A" (format_0f f) = false.
Proof.
  unfold format_0f.
  destruct (Prim2SF f) as [s | s | | s m e]; try destruct s;
    try reflexivity; rewrite has_byte_app, dec_without_letter; reflexivity.
Qed.

Lemma dot_without_letter (lvl : string) : has_byte "A" (_dot_by lvl) = false.
Proof.
  unfold _dot_by.
  destruct (String.eqb lvl "OK"); [reflexivity | ].
  destruct (String.eqb lvl "WARN"); [reflexivity | ].
  destruct (String.eqb lvl "ALERT"); reflexivity.
Qed.

Lemma na_has_letter (g : string) : has_byte "A" (g ++ "N/A") = true.
Proof. rewrite has_byte_app. apply orb_true_r. Qed.

Lemma ms_cell_na (lvl : string) (v : option float) :
  (exists g, _dot_by lvl ++ " " ++ _fmt_ms v = g ++ "N/A") <-> v = None.
Proof.
  split.
  - intros (g & E). destruct v as [f | ]; [exfalso | reflexivity].
    apply (f_equal (has_byte "A")) in E.
    rewrite na_has_letter, !has_byte_app, dot_without_letter in E.
    cbn [_fmt_ms] in E.
    rewrite has_byte_app, format_without_letter in E. discriminate E.
  - intros ->. exists (_dot_by lvl ++ " "). cbn [_fmt_ms].
    rewrite append_assoc. reflexivity.
Qed.

Lemma pct_cell_na (lvl : string) (v : option float) :
  (exists g, _dot_by lvl ++ " " ++ _fmt_pct v = g ++ "N/A") <-> v = None.
Proof.
  split.
  - intros (g & E). destruct v as [f | ]; [exfalso | reflexivity].
    apply (f_equal (has_byte "A")) in E.
    rewrite na_has_letter, !has_byte_app, dot_without_letter in E.
    cbn [_fmt_pct] in E.
    rewrite has_byte_app, format_without_letter in E. discriminate E.
  - intros ->. exists (_dot_by lvl ++ " "). cbn [_fmt_pct].
    rewrite append_assoc. reflexivity.
Qed.

(** X15. "N/A" is shown for unknown readings only: the write-latency,
    read-latency, CPU and free-space cells end in "N/A" exactly when the
    reading (for free space, the computed percentage) is missing, and the
    connections cell does exactly when no connection count was fetched; no
    formatted number, glyph or sign contains the letter. *)
Theorem na_only_for_unknown (t : thresholds) (reg : string)
  (o : observation) (a : assessment) :
  assess t reg o = Ok a ->
  let r := the_row a in
  ((exists g, write_cell r = g ++ "N/A") <-> wlat o = None) /\
  ((exists g, read_cell r = g ++ "N/A") <-> rlat o = None) /\
  ((exists g, cpu_cell r = g ++ "N/A") <-> cpu o = None) /\
  ((exists g, free_cell r = g ++ "N/A") <-> free_pct a = None) /\
  ((exists g, conns_cell r = g ++ "N/A") <-> conns o = None).
Proof.
  intro H. assess_cases H.
  split.
  { etransitivity; [apply ms_cell_na | ].
    destruct (wlat o); cbn; split; congruence. }
  split.
  { etransitivity; [apply ms_cell_na | ].
    destruct (rlat o); cbn; split; congruence. }
  split; [apply pct_cell_na | ]. split; [apply pct_cell_na | ].
  destruct (conns o) as [f | ]; cbn [conns_cell_of] in Hconns.
  - destruct (int_of_float f) as [n | e]; cbv beta iota delta [bind] in Hconns;
      [ | discriminate Hconns].
    injection Hconns as <-. split; [ | discriminate].
    intros (g & E). apply (f_equal (has_byte "A")) in E.
    rewrite na_has_letter, dec_without_letter in E. discriminate E.
  - injection Hconns as <-. split; [reflexivity | ].
    intros _. exists EmptyString. reflexivity.
Qed.

(** ** Readings that are not numbers *)

Lemma is_nan_SF (f : float) : is_nan f = true -> Prim2SF f = S754_nan.
Proof.
  unfold is_nan. rewrite FloatAxioms.eqb_spec. unfold SFeqb, SFcompare.
  destruct (Prim2SF f) as [s | s | | s m e]; try destruct s; cbn;
    try discriminate; try reflexivity;
    rewrite Z.compare_refl, ?Pos.compare_cont_refl, ?Pos.compare_refl;
    cbn; discriminate.
Qed.

Lemma leb_nan_r (c x : float) :
  Prim2SF x = S754_nan -> (c <=? x)%float = false.
Proof.
  intro H. rewrite leb_spec. unfold SFleb, SFcompare. rewrite H.
  destruct (Prim2SF c) as [s | s | | s m e]; try destruct s; reflexivity.
Qed.

Lemma leb_nan_l (c x : float) :
  Prim2SF x = S754_nan -> (x <=? c)%float = false.
Proof.
  intro H. rewrite leb_spec. unfold SFleb, SFcompare. rewrite H. reflexivity.
Qed.

Lemma mul_nan (x y : float) :
  Prim2SF x = S754_nan -> Prim2SF (x * y) = S754_nan.
Proof. intro H. rewrite mul_spec. unfold SF64mul, SFmul. rewrite H. reflexivity. Qed.

Lemma format_nan (x : float) : Prim2SF x = S754_nan -> format_0f x = "nan".
Proof. intro H. unfold format_0f. rewrite H. reflexivity. Qed.

(** X17. A reading that is not a number is shown green: whatever the
    cutoffs, a NaN write latency, read latency, CPU reading or free-space
    percentage sets no alert flag, gets the level OK, and its cell reads
    "nan" behind the green glyph, since every comparison with NaN is
    false. *)
Theorem nan_reading_is_green (t : thresholds) (reg : string)
  (o : observation) (a : assessment) :
  assess t reg o = Ok a ->
  let r := the_row a in
  (forall v, wlat o = Some v -> is_nan v = true ->
     write_alert a = false /\ write_lvl a = "OK" /\
     write_cell r = "🟢 nan ms") /\
  (forall v, rlat o = Some v -> is_nan v = true ->
     read_alert a = false /\ read_lvl a = "OK" /\
     read_cell r = "🟢 nan ms") /\
  (forall v, cpu o = Some v -> is_nan v = true ->
     cpu_alert a = false /\ cpu_lvl a = "OK" /\ cpu_cell r = "🟢 nan%") /\
  (forall v, free_pct a = Some v -> is_nan v = true ->
     free_alert a = false /\ free_lvl a = "OK" /\ free_cell r = "🟢 nan%").
Proof.
  intro H. assess_cases H.
  split; [ | split; [ | split ] ]; intros v Hv Hnan;
    apply is_nan_SF in Hnan; rewrite Hv;
    unfold truthy_at_least, truthy_at_most;
    cbn [to_ms at_least at_most _fmt_ms _fmt_pct].
  - pose proof (mul_nan v 1000 Hnan) as Hm.
    rewrite !(leb_nan_r _ _ Hm), andb_false_r, (format_nan _ Hm).
    repeat split.
  - pose proof (mul_nan v 1000 Hnan) as Hm.
    rewrite !(leb_nan_r _ _ Hm), andb_false_r, (format_nan _ Hm).
    repeat split.
  - rewrite !(leb_nan_r _ _ Hnan), andb_false_r, (format_nan _ Hnan).
    repeat split.
  - rewrite !(leb_nan_l _ _ Hnan), andb_false_r, (format_nan _ Hnan).
    repeat split.
Qed.

End Dashboard.

(** * The statements at the sample data

    [lower] stands in for the interpreter's lower-casing. *)

Lemma row_has_issue_iff_alert_witness :
  exists a : assessment,
    assess lower default_thresholds "us-east-1" quiet_obs = Ok a /\
    ~ in_bad_state default_thresholds quiet_obs /\
    pending_lvl a = "WARN" /\
    row_has_issue a = false /\
    failing [the_row a] [row_has_issue a] = [].
Proof.
  eexists. split; [reflexivity | ].
  assert (Hn : ~ in_bad_state default_thresholds quiet_obs).
  { intros [H | [H | [H | [H | [H | [H | H]]]]]].
    - discriminate H.
    - apply H. reflexivity.
    - destruct H as (w & E & Hle). injection E as <-. discriminate Hle.
    - destruct H as (w & E & Hle). injection E as <-. discriminate Hle.
    - destruct H as (c & E & Hle). injection E as <-. discriminate Hle.
    - destruct H as (b & g & Eb & Eg & _ & Hle).
      injection Eb as <-. vm_compute in Eg. injection Eg as <-.
      discriminate Hle.
    - apply H. exists 100%Z, 200%Z.
      split; [reflexivity | split; [reflexivity | lia]]. }
  split; [exact Hn | ]. split; [reflexivity | ].
  destruct (row_has_issue_iff_alert lower default_thresholds "us-east-1"
              quiet_obs _ eq_refl) as (_ & _ & _ & _ & H & _).
  exact (H Hn).
Defined.

Lemma unknown_reading_is_ok_witness :
  exists a : assessment,
    assess lower default_thresholds "us-east-1" blind_obs = Ok a /\
    (write_alert a = false /\ write_lvl a = "OK" /\
     write_cell (the_row a) = "🟢 N/A") /\
    (free_pct a = None /\ free_alert a = false /\ free_lvl a = "OK" /\
     free_cell (the_row a) = "🟢 N/A") /\
    conns_cell (the_row a) = "N/A".
Proof.
  eexists. split; [reflexivity | ].
  destruct (unknown_reading_is_ok lower default_thresholds "us-east-1" blind_obs _
              eq_refl) as (Hw & _ & _ & Hf & Hc).
  split; [exact (Hw eq_refl) | ].
  split; [exact (Hf eq_refl) | exact (Hc eq_refl)].
Defined.

Lemma autoscaling_enabled_iff_witness :
  exists x : assessment,
    assess lower default_thresholds "us-east-1" quiet_obs = Ok x /\
    autoscale_disabled x = false /\ autoscale_lvl x = "OK" /\
    autoscale_cell (the_row x) = "🟢 Enabled".
Proof.
  eexists. split; [reflexivity | ].
  apply (proj1 (autoscaling_enabled_iff lower default_thresholds "us-east-1"
                  quiet_obs _ eq_refl)).
  exists 100%Z, 200%Z. split; [reflexivity | split; [reflexivity | lia]].
Defined.

Lemma free_space_percent_witness :
  exists a : assessment,
    assess lower default_thresholds "us-east-1" busy_obs = Ok a /\
    free_pct a = Some 10%float /\
    free_alert a = true /\ free_lvl a = "ALERT" /\
    free_cell (the_row a) = "🔴 10%".
Proof.
  eexists. split; [reflexivity | ].
  destruct (free_space_percent lower default_thresholds "us-east-1" busy_obs _
              eq_refl) as (_ & _ & _ & _ & _ & H).
  destruct (H eq_refl eq_refl) as [Hp Ha].
  split; [exact Hp | exact (Ha eq_refl)].
Defined.

Lemma latency_in_milliseconds_witness :
  exists a : assessment,
    assess lower default_thresholds "us-east-1" busy_obs = Ok a /\
    write_ms a = Some 250%float /\ write_alert a = false /\
    write_lvl a = "WARN" /\ write_cell (the_row a) = "🟡 250 ms".
Proof.
  eexists. split; [reflexivity | ].
  destruct (latency_in_milliseconds lower default_thresholds "us-east-1" busy_obs _
              eq_refl) as (_ & _ & H).
  exact (H eq_refl eq_refl).
Defined.

Lemma zero_reading_never_warn_witness :
  exists a : assessment,
    assess lower zero_warn_thresholds "us-east-1" idle_obs = Ok a /\
    write_lvl a <> "WARN" /\
    write_lvl a
    = if (WRITE_ALERT zero_warn_thresholds <=? 0)%float then "ALERT"
      else "OK".
Proof.
  eexists. split; [reflexivity | ].
  destruct (zero_reading_never_warn lower zero_warn_thresholds "us-east-1" idle_obs
              _ eq_refl) as (H & _).
  exact (H 0%float eq_refl eq_refl).
Defined.



Lemma run_result_invariants_witness :
  exists (r : run_result) (eff : list effect),
    run lower sample_cfg [quiet_obs; busy_obs] = Ok (r, eff) /\
    ok r = true /\ instances r = 2%nat.
Proof.
  eexists _, _. split; [reflexivity | ].
  destruct (run_result_invariants lower sample_cfg [quiet_obs; busy_obs] _ _
              eq_refl) as (Hok & Hn & _).
  split; [exact Hok | exact Hn].
Defined.

Lemma failing_iff_red_cell_witness :
  exists a : assessment,
    assess lower default_thresholds "us-east-1" busy_obs = Ok a /\
    prefix "🔴" (free_cell (the_row a)) = free_alert a /\
    prefix "🔴" (pending_cell (the_row a)) = false.
Proof.
  eexists. split; [reflexivity | ].
  pose proof (failing_iff_red_cell lower default_thresholds "us-east-1" busy_obs _
                eq_refl) as H.
  cbv zeta in H.
  destruct H as (_ & _ & _ & _ & _ & Hfree & _ & Hpend & _).
  split; [exact Hfree | exact Hpend].
Defined.

Lemma pending_cell_contents_witness :
  exists a : assessment,
    assess lower default_thresholds "us-east-1" quiet_obs = Ok a /\
    pending_has a = true /\
    pending_cell (the_row a) = "🟡 db-upgrade, system-update".
Proof.
  eexists. split; [reflexivity | ].
  pose proof (pending_cell_contents lower default_thresholds "us-east-1" quiet_obs
                _ eq_refl) as H.
  cbv zeta in H.
  destruct H as (_ & _ & _ & H).
  apply H. discriminate.
Defined.

Lemma report_without_metrics_witness :
  exists eff : list effect,
    run_cloud lower sample_cfg dark_cloud = Ok (report_sent 2 1, eff).
Proof.
  destruct (report_without_metrics lower sample_cfg dark_cloud
              (fun _ _ => eq_refl)) as (eff & Hrun & _).
  exists eff. exact Hrun.
Defined.

Lemma lenient_cutoffs_fail_less_witness :
  exists a a' : assessment,
    assess lower default_thresholds "us-east-1" busy_obs = Ok a /\
    assess lower lenient_thresholds "us-east-1" busy_obs = Ok a' /\
    row_has_issue a' = true /\ row_has_issue a = true.
Proof.
  eexists _, _. split; [reflexivity | ]. split; [reflexivity | ].
  split; [reflexivity | ].
  destruct (lenient_cutoffs_fail_less lower default_thresholds lenient_thresholds
              "us-east-1" busy_obs _ _ eq_refl eq_refl eq_refl eq_refl
              eq_refl eq_refl) as (_ & _ & _ & _ & _ & _ & _ & H).
  apply H. reflexivity.
Defined.

Lemma worse_reading_stays_alert_witness :
  exists a a' : assessment,
    assess lower default_thresholds "us-east-1" busy_obs = Ok a /\
    assess lower default_thresholds "us-east-1" full_obs = Ok a' /\
    free_pct a = Some 10%float /\ free_pct a' = Some 5%float /\
    free_lvl a' = "ALERT".
Proof.
  eexists _, _. split; [reflexivity | ]. split; [reflexivity | ].
  split; [reflexivity | ]. split; [reflexivity | ].
  destruct (worse_reading_stays_alert lower default_thresholds "us-east-1"
              busy_obs full_obs _ _ eq_refl eq_refl) as (_ & _ & _ & H).
  exact (H 10%float 5%float eq_refl eq_refl eq_refl eq_refl).
Defined.

Lemma na_only_for_unknown_witness :
  exists a : assessment,
    assess lower default_thresholds "us-east-1" busy_obs = Ok a /\
    read_cell (the_row a) = "🟢 N/A" /\
    ~ exists g, write_cell (the_row a) = g ++ "N/A".
Proof.
  eexists. split; [reflexivity | ]. split; [reflexivity | ].
  pose proof (na_only_for_unknown lower default_thresholds "us-east-1" busy_obs _
                eq_refl) as H.
  cbv zeta in H. destruct H as (Hw & _).
  intro Hg. apply Hw in Hg. discriminate Hg.
Defined.

Lemma nan_reading_is_green_witness :
  exists a : assessment,
    assess lower default_thresholds "us-east-1" nan_obs = Ok a /\
    write_lvl a = "OK" /\ cpu_cell (the_row a) = "🟢 nan%".
Proof.
  eexists. split; [reflexivity | ].
  pose proof (nan_reading_is_green lower default_thresholds "us-east-1" nan_obs _
                eq_refl) as H.
  cbv zeta in H. destruct H as (Hw & _ & Hc & _).
  split; [exact (proj1 (proj2 (Hw nan eq_refl eq_refl)))
         | exact (proj2 (proj2 (Hc nan eq_refl eq_refl)))].
Defined.
